(** * pkg/services/github.go: the GitHub commit-status notification service

    A shallow embedding of [GetTemplater], [trunc], [fullNameByRepoURL] and
    [gitHubService.Send], together with the library operations they call
    (unicode/utf8, strings, regexp [\.git$], text/template, git-urls and
    the go-github status client), and the properties of the service. *)

From Stdlib Require Import ZArith Lia Ascii String List Bool.
From stdpp Require Import base option list strings gmap fin_maps.

Local Open Scope string_scope.
Local Open Scope Z_scope.

(** ** Go values: errors, panics, outcomes *)

(** An [error] value is represented by its message (what [Error()] gives). *)
Definition error : Type := string.

(** [fmt.Errorf] with a constant format string. *)
Definition fmt_Errorf (msg : string) : error := msg.

(** What a panicking goroutine carries. *)
Inductive panic_value : Type :=
| PanicErr (e : error)          (* panic(err) *)
| PanicIndex (i len : Z)        (* index out of range [i] with length len *)
| PanicSlice (hi cap : Z).      (* slice bounds out of range [:hi] with capacity cap *)

(** A call either returns normally or unwinds with a panic. *)
Inductive outcome (A : Type) : Type :=
| Returns (a : A)
| Panics (p : panic_value).
Arguments Returns {A} a.
Arguments Panics {A} p.

Definition obind {A B} (m : outcome A) (k : A -> outcome B) : outcome B :=
  match m with
  | Returns a => k a
  | Panics p => Panics p
  end.

Notation "'call' x <- m ; k" := (obind m (fun x => k))
  (at level 10, x name, m at level 100, k at level 200).

(** A Go [(T, error)] pair in which exactly one side is meaningful. *)
Inductive result (A : Type) : Type :=
| Ok (a : A)
| Err (e : error).
Arguments Ok {A} a.
Arguments Err {A} e.

(** Go's [int] is 64 bits wide; arithmetic on it wraps. *)
Definition int_wrap (z : Z) : Z := (z + 2 ^ 63) mod 2 ^ 64 - 2 ^ 63.

(** ** unicode/utf8 and the string <-> []rune conversions

    A Go string is a sequence of bytes; [string] (a list of 8-bit
    characters) is used for it directly. *)

Definition byteZ (c : ascii) : Z := Z.of_N (N_of_ascii c).
Definition Zbyte (z : Z) : ascii := ascii_of_N (Z.to_N z).

Definition RuneError : Z := 0xFFFD.
Definition MaxRune : Z := 0x10FFFF.
Definition surrogateMin : Z := 0xD800.
Definition surrogateMax : Z := 0xDFFF.

(** A Unicode scalar value: in range and not a surrogate. *)
Definition valid_rune (r : Z) : Prop :=
  0 <= r <= MaxRune /\ ~ (surrogateMin <= r <= surrogateMax).

(** The [first] table of unicode/utf8 for the lead bytes of multi-byte
    sequences: the sequence length and the accepted range of the second
    byte.  [None] stands for the entries [as] (ASCII) and [xx] (invalid). *)
Definition first (s0 : Z) : option (nat * (Z * Z)) :=
  if (0xC2 <=? s0) && (s0 <=? 0xDF) then Some (2%nat, (0x80, 0xBF))
  else if s0 =? 0xE0 then Some (3%nat, (0xA0, 0xBF))
  else if (0xE1 <=? s0) && (s0 <=? 0xEC) then Some (3%nat, (0x80, 0xBF))
  else if s0 =? 0xED then Some (3%nat, (0x80, 0x9F))
  else if (0xEE <=? s0) && (s0 <=? 0xEF) then Some (3%nat, (0x80, 0xBF))
  else if s0 =? 0xF0 then Some (4%nat, (0x90, 0xBF))
  else if (0xF1 <=? s0) && (s0 <=? 0xF3) then Some (4%nat, (0x80, 0xBF))
  else if s0 =? 0xF4 then Some (4%nat, (0x80, 0x8F))
  else None.

(** Continuation bytes lie in [locb, hicb] = [0x80, 0xBF]. *)
Definition is_cont (b : Z) : bool := (0x80 <=? b) && (b <=? 0xBF).

(** [utf8.DecodeRuneInString]: the first rune of [s] and its width in
    bytes; malformed input gives [(RuneError, 1)], empty input
    [(RuneError, 0)].  Masks [x & 0x3F] and shifts [x << 6] are written as
    [x mod 64] and [x * 64], and [|] between parts with no common bit
    as [+]. *)
Definition DecodeRuneInString (s : string) : Z * nat :=
  match s with
  | EmptyString => (RuneError, 0%nat)
  | String c0 t0 =>
    let s0 := byteZ c0 in
    match first s0 with
    | None => (if s0 <? 0x80 then s0 else RuneError, 1%nat)
    | Some (sz, (lo, hi)) =>
      if (String.length s <? sz)%nat then (RuneError, 1%nat) else
      match t0 with
      | EmptyString => (RuneError, 1%nat)
      | String c1 t1 =>
        let s1 := byteZ c1 in
        if (s1 <? lo) || (hi <? s1) then (RuneError, 1%nat) else
        if (sz <=? 2)%nat then (s0 mod 32 * 64 + s1 mod 64, 2%nat) else
        match t1 with
        | EmptyString => (RuneError, 1%nat)
        | String c2 t2 =>
          let s2 := byteZ c2 in
          if negb (is_cont s2) then (RuneError, 1%nat) else
          if (sz <=? 3)%nat
          then (s0 mod 16 * 4096 + s1 mod 64 * 64 + s2 mod 64, 3%nat) else
          match t2 with
          | EmptyString => (RuneError, 1%nat)
          | String c3 _ =>
            let s3 := byteZ c3 in
            if negb (is_cont s3) then (RuneError, 1%nat) else
            (s0 mod 8 * 262144 + s1 mod 64 * 4096 + s2 mod 64 * 64 + s3 mod 64,
             4%nat)
          end
        end
      end
    end
  end.

(** Go's [s[k:]] on a string, for [k <= len(s)]. *)
Fixpoint string_drop (k : nat) (s : string) : string :=
  match k, s with
  | O, _ => s
  | S k', String _ t => string_drop k' t
  | S _, EmptyString => EmptyString
  end.

(** The loop behind [[]rune(s)]: decode a rune, advance by its width.  The
    counter bounds the number of iterations; every iteration consumes at
    least one byte, so [String.length s] iterations always suffice. *)
Fixpoint runes_loop (fuel : nat) (s : string) : list Z :=
  match fuel with
  | O => []
  | S fuel' =>
    match s with
    | EmptyString => []
    | String _ _ =>
      let '(r, w) := DecodeRuneInString s in
      r :: runes_loop fuel' (string_drop w s)
    end
  end.

(** [[]rune(s)]. *)
Definition stringToRunes (s : string) : list Z :=
  runes_loop (String.length s) s.

(** [utf8.RuneCountInString]: malformed bytes count as one rune each, the
    same walk as [[]rune(s)]. *)
Definition RuneCountInString (s : string) : Z :=
  Z.of_nat (length (stringToRunes s)).

(** The runtime's [encoderune]: the UTF-8 bytes of one rune; negative
    values, values above [MaxRune] and surrogates are written as
    [RuneError]. *)
Definition encodeRune (r : Z) : string :=
  if (0 <=? r) && (r <=? 0x7F) then String (Zbyte r) EmptyString
  else if (0 <=? r) && (r <=? 0x7FF) then
    String (Zbyte (0xC0 + r / 64)) (String (Zbyte (0x80 + r mod 64)) EmptyString)
  else
    let r3 := if (r <? 0) || (MaxRune <? r)
                 || ((surrogateMin <=? r) && (r <=? surrogateMax))
              then RuneError else r in
    if r3 <=? 0xFFFF then
      String (Zbyte (0xE0 + r3 / 4096))
        (String (Zbyte (0x80 + r3 / 64 mod 64))
           (String (Zbyte (0x80 + r3 mod 64)) EmptyString))
    else
      String (Zbyte (0xF0 + r3 / 262144))
        (String (Zbyte (0x80 + r3 / 4096 mod 64))
           (String (Zbyte (0x80 + r3 / 64 mod 64))
              (String (Zbyte (0x80 + r3 mod 64)) EmptyString))).

(** [string(rs)] for a rune slice. *)
Fixpoint runesToString (rs : list Z) : string :=
  match rs with
  | [] => EmptyString
  | r :: rs' => encodeRune r +:+ runesToString rs'
  end.

(** ** trunc (github.go, lines 156-161) *)

(** The slice expression [rs[0:hi]] panics unless [0 <= hi <= cap(rs)].
    The capacity is taken to be the length: in [trunc] the bound is either
    below the length or, after wrap-around, beyond any capacity. *)
Definition slice_to {A} (rs : list A) (hi : Z) : outcome (list A) :=
  if (0 <=? hi) && (hi <=? Z.of_nat (length rs))
  then Returns (take (Z.to_nat hi) rs)
  else Panics (PanicSlice hi (Z.of_nat (length rs))).

Definition trunc (message : string) (n : Z) : outcome string :=
  if RuneCountInString message >? n then
    call prefix <- slice_to (stringToRunes message) (int_wrap (n - 3));
    Returns (runesToString prefix +:+ "...")
  else Returns message.

(** ** strings.Split, strings.Join, text.SplitRemoveEmpty, gitSuffix *)

(** Whether the byte [c] occurs in [s]. *)
Fixpoint string_mem (c : ascii) (s : string) : bool :=
  match s with
  | EmptyString => false
  | String x t => Ascii.eqb x c || string_mem c t
  end.

Fixpoint string_take (k : nat) (s : string) : string :=
  match k, s with
  | S k', String c t => String c (string_take k' t)
  | _, _ => EmptyString
  end.

(** [explode]: what [strings.Split] does for an empty separator, one
    string per UTF-8 sequence. *)
Fixpoint explode_loop (fuel : nat) (s : string) : list string :=
  match fuel with
  | O => []
  | S fuel' =>
    match s with
    | EmptyString => []
    | String _ _ =>
      let w := snd (DecodeRuneInString s) in
      string_take w s :: explode_loop fuel' (string_drop w s)
    end
  end.

(** The scan of [genSplit] for a non-empty separator: [cur] is the piece
    being collected, [skip] the number of bytes of a matched separator
    still to step over. *)
Fixpoint Split_scan (sep : string) (skip : nat) (cur s : string) : list string :=
  match s with
  | EmptyString => [cur]
  | String c t =>
    match skip with
    | S k => Split_scan sep k cur t
    | O =>
      if String.prefix sep s
      then cur :: Split_scan sep (String.length sep - 1) EmptyString t
      else Split_scan sep O (cur +:+ String c EmptyString) t
    end
  end.

(** [strings.Split(s, sep)]. *)
Definition strings_Split (s sep : string) : list string :=
  if String.eqb sep "" then explode_loop (String.length s) s
  else Split_scan sep O EmptyString s.

(** [strings.Join(elems, sep)]. *)
Fixpoint strings_Join (elems : list string) (sep : string) : string :=
  match elems with
  | [] => ""
  | [a] => a
  | a :: rest => a +:+ sep +:+ strings_Join rest sep
  end.

(** Modelled from the spec: [text.SplitRemoveEmpty] of pkg/util/text is not
    part of the sources at hand; the specification has it "split the
    remaining path on [/], discarding empty segments". *)
Definition SplitRemoveEmpty (s sep : string) : list string :=
  List.filter (fun item => negb (String.eqb item "")) (strings_Split s sep).

(** [gitSuffix.ReplaceAllString(src, repl)] for
    [gitSuffix = regexp.MustCompile(`\.git$`)]: without the multi-line
    flag [$] matches at the end of the text only, so the single possible
    match is a final [.git]. *)
Fixpoint gitSuffix_ReplaceAllString (src repl : string) : string :=
  match src with
  | EmptyString => EmptyString
  | String c t =>
    if String.eqb src ".git" then repl
    else String c (gitSuffix_ReplaceAllString t repl)
  end.

(** ** fullNameByRepoURL (github.go, lines 163-175) *)

(** The fields of [net/url.URL] that git-urls fills in. *)
Record URL : Type := mkURL {
  Scheme : string;
  User : option string;
  Host : string;
  Path : string;
  RawQuery : string
}.

(** [giturls.Parse] of github.com/whilp/git-urls, an external package. *)
Class GitURLs : Type := {
  giturls_Parse : string -> result URL
}.

Definition fullNameByRepoURL `{GitURLs} (rawURL : string) : outcome string :=
  match giturls_Parse rawURL with
  | Err err => Panics (PanicErr err)
  | Ok parsed =>
    let path := gitSuffix_ReplaceAllString (Path parsed) "" in
    let pathParts := SplitRemoveEmpty path "/" in
    if (2 <=? length pathParts)%nat
    then Returns (strings_Join (take 2 pathParts) "/")
    else Returns path
  end.

(** The path of the parsed URL, the one component [fullNameByRepoURL]
    reads. *)
Definition parsed_path `{GitURLs} (rawURL : string) : result string :=
  match giturls_Parse rawURL with
  | Ok parsed => Ok (Path parsed)
  | Err err => Err err
  end.

(** ** Notifications and the payload store *)

Record GitHubNotification : Type := mkGitHubNotification {
  State : string;
  Label : string;
  TargetURL : string;
  RepoURL : string;
  Revision : string
}.

(** [&GitHubNotification{}]: every field is the empty string. *)
Definition zeroGitHubNotification : GitHubNotification :=
  mkGitHubNotification "" "" "" "" "".

#[global] Instance GitHubNotification_inhabited : Inhabited GitHubNotification :=
  populate zeroGitHubNotification.

Definition set_State (v : string) (p : GitHubNotification) :=
  mkGitHubNotification v (Label p) (TargetURL p) (RepoURL p) (Revision p).
Definition set_Label (v : string) (p : GitHubNotification) :=
  mkGitHubNotification (State p) v (TargetURL p) (RepoURL p) (Revision p).
Definition set_TargetURL (v : string) (p : GitHubNotification) :=
  mkGitHubNotification (State p) (Label p) v (RepoURL p) (Revision p).
Definition set_RepoURL (v : string) (p : GitHubNotification) :=
  mkGitHubNotification (State p) (Label p) (TargetURL p) v (Revision p).
Definition set_Revision (v : string) (p : GitHubNotification) :=
  mkGitHubNotification (State p) (Label p) (TargetURL p) (RepoURL p) v.

(** A [*GitHubNotification] is an address in the store of payload objects;
    two notifications holding the same address share the object. *)
Definition loc : Type := positive.
Abbreviation PayloadStore := (gmap loc GitHubNotification).

(** Modelled from the spec: the outer [Notification] type is declared in
    another file of the package; it "owns an optional NotificationPayload
    and a plain-text Message used for the status description".  The
    payloads of the other services are not touched here. *)
Record Notification : Type := mkNotification {
  Message : string;
  GitHub : option loc
}.

Definition set_GitHub (l : option loc) (n : Notification) : Notification :=
  mkNotification (Message n) l.

(** Modelled from the spec: [Destination] is declared in another file of
    the package; it "is accepted but unused" by [Send]. *)
Record Destination : Type := mkDestination {
  Service : string;
  Recipient : string
}.

(** The payload's fields, in the order [GetTemplater] handles them. *)
Inductive Field : Type :=
| FRepoURL | FRevision | FState | FLabel | FTargetURL.

#[global] Instance Field_eq_dec : EqDecision Field.
Proof. solve_decision. Defined.

Definition field_order : list Field :=
  [FRepoURL; FRevision; FState; FLabel; FTargetURL].

Definition get_field (fd : Field) (p : GitHubNotification) : string :=
  match fd with
  | FRepoURL => RepoURL p
  | FRevision => Revision p
  | FState => State p
  | FLabel => Label p
  | FTargetURL => TargetURL p
  end.

Definition set_field (fd : Field) : string -> GitHubNotification -> GitHubNotification :=
  match fd with
  | FRepoURL => set_RepoURL
  | FRevision => set_Revision
  | FState => set_State
  | FLabel => set_Label
  | FTargetURL => set_TargetURL
  end.

(** The assignments [written], made one after the other to the object at
    [l]. *)
Definition write_fields (l : loc) (written : list (Field * string))
    (h : PayloadStore) : PayloadStore :=
  foldl (fun h '(fd, v) => alter (set_field fd v) l h) h written.

Definition apply_writes (written : list (Field * string))
    (p : GitHubNotification) : GitHubNotification :=
  foldl (fun p '(fd, v) => set_field fd v p) p written.

(** A non-nil payload pointer refers to an object of the store. *)
Definition payload_valid (n : Notification) (h : PayloadStore) : Prop :=
  forall l, GitHub n = Some l -> is_Some (h !! l).

(** The pointer the closure works on, after [notification.GitHub] has been
    allocated if it was nil. *)
Definition attach_payload (n : Notification) (h : PayloadStore)
    : Notification * PayloadStore * loc :=
  match GitHub n with
  | None =>
    let l := fresh (dom h) in
    (set_GitHub (Some l) n, <[l := zeroGitHubNotification]> h, l)
  | Some l => (n, h, l)
  end.

(** ** text/template, as GetTemplater uses it *)

(** The template engine is an external package.  [tt_Parse name f text]
    stands for [texttemplate.New(name).Funcs(f).Parse(text)];
    [tt_Execute t vars w] for [t.Execute(&buf, vars)] on a fresh buffer: it
    gives the buffer's content and the error, and since the functions of
    the function map may act on the outside, it takes the state [w] of
    that outside to a new one. *)
Class TemplateEngine : Type := {
  Template : Type;
  FuncMap : Type;
  Vars : Type;
  World : Type;
  tt_Parse : string -> FuncMap -> string -> result Template;
  tt_Execute : Template -> Vars -> World -> World * (string * option error)
}.

Definition rbind {A B} (m : result A) (k : A -> result B) : result B :=
  match m with
  | Ok a => k a
  | Err e => Err e
  end.

Notation "'try' x <- m ; k" := (rbind m (fun x => k))
  (at level 10, x name, m at level 100, k at level 200).

Definition defaultRepoURLtemplate : string := "{{.app.spec.source.repoURL}}".
Definition defaultRevisionTemplate : string :=
  "{{.app.status.operationState.syncResult.revision}}".

Section Templating.
Context `{TemplateEngine}.

(** The five variables the returned closure captures. *)
Record CompiledTemplates : Type := mkCompiled {
  repoURL : Template;
  revision : Template;
  state : Template;
  label : Template;
  targetURL : Template
}.

(** Lines 48-79 of [GetTemplater]: the five [Parse] calls, each followed
    by [if err != nil { return nil, err }]. *)
Definition compileTemplates (g : GitHubNotification) (name : string)
    (f : FuncMap) : result CompiledTemplates :=
  let repoURLtemplate :=
    if negb (String.eqb (RepoURL g) "") then RepoURL g
    else defaultRepoURLtemplate in
  try repoURL <- tt_Parse name f repoURLtemplate;
  let revisionTemplate :=
    if negb (String.eqb (Revision g) "") then Revision g
    else defaultRevisionTemplate in
  try revision <- tt_Parse name f revisionTemplate;
  try state <- tt_Parse name f (State g);
  try label <- tt_Parse name f (Label g);
  try targetURL <- tt_Parse name f (TargetURL g);
  Ok (mkCompiled repoURL revision state label targetURL).

(** Modelled from the spec: the [Templater] type is declared in another
    file of the package, a callable [execute(notification, context)] that
    "mutates the caller's notification object" and returns an error or
    nothing.  A run leaves the caller's notification object, the payload
    store and the outside world, with the returned [error] ([None] is
    [nil]). *)
Definition Templater : Type :=
  Notification -> Vars -> PayloadStore -> World ->
  (Notification * PayloadStore * World) * option error.

(** Lines 81-117: the closure returned by [GetTemplater]. *)
Definition runTemplates (cs : CompiledTemplates) : Templater :=
  fun notification vars h w =>
  let '(notification, h, l) :=
    match GitHub notification with
    | None =>
      let l := fresh (dom h) in
      (set_GitHub (Some l) notification, <[l := zeroGitHubNotification]> h, l)
    | Some l => (notification, h, l)
    end in
  let '(w, (repoData, err)) := tt_Execute (repoURL cs) vars w in
  match err with Some err => ((notification, h, w), Some err) | None =>
  let h := alter (set_RepoURL repoData) l h in
  let '(w, (revisionData, err)) := tt_Execute (revision cs) vars w in
  match err with Some err => ((notification, h, w), Some err) | None =>
  let h := alter (set_Revision revisionData) l h in
  let '(w, (stateData, err)) := tt_Execute (state cs) vars w in
  match err with Some err => ((notification, h, w), Some err) | None =>
  let h := alter (set_State stateData) l h in
  let '(w, (labelData, err)) := tt_Execute (label cs) vars w in
  match err with Some err => ((notification, h, w), Some err) | None =>
  let h := alter (set_Label labelData) l h in
  let '(w, (targetData, err)) := tt_Execute (targetURL cs) vars w in
  match err with Some err => ((notification, h, w), Some err) | None =>
  let h := alter (set_TargetURL targetData) l h in
  ((notification, h, w), None)
  end end end end end.

(** [(g *GitHubNotification) GetTemplater(name, f)]. *)
Definition GetTemplater (g : GitHubNotification) (name : string)
    (f : FuncMap) : result Templater :=
  try cs <- compileTemplates g name f;
  Ok (runTemplates cs).

(** *** The specification's view of compilation and execution

    The five fields in the order the specification fixes, and compilation
    and execution described field by field, to compare [compileTemplates]
    and [runTemplates] with. *)

(** The template text of a field: the defaults stand in for an empty
    [RepoURL] and an empty [Revision], the other three are taken as
    configured. *)
Definition template_text (g : GitHubNotification) (fd : Field) : string :=
  match fd with
  | FRepoURL =>
    if String.eqb (RepoURL g) "" then defaultRepoURLtemplate else RepoURL g
  | FRevision =>
    if String.eqb (Revision g) "" then defaultRevisionTemplate else Revision g
  | FState => State g
  | FLabel => Label g
  | FTargetURL => TargetURL g
  end.

Definition template_of (cs : CompiledTemplates) (fd : Field) : Template :=
  match fd with
  | FRepoURL => repoURL cs
  | FRevision => revision cs
  | FState => state cs
  | FLabel => label cs
  | FTargetURL => targetURL cs
  end.

(** Execute the templates of [fds] one after the other, each in the
    world the previous one left, and stop at the first that fails: the
    world at the end, the outputs of the executions that succeeded, and
    the failure if there was one. *)
Fixpoint spec_execute_in_order (cs : CompiledTemplates) (vars : Vars)
    (fds : list Field) (w : World)
    : World * list (Field * string) * option (Field * error) :=
  match fds with
  | [] => (w, [], None)
  | fd :: rest =>
    let '(w1, (out, err)) := tt_Execute (template_of cs fd) vars w in
    match err with
    | Some e => (w1, [], Some (fd, e))
    | None =>
      let '(w2, written, failure) := spec_execute_in_order cs vars rest w1 in
      (w2, (fd, out) :: written, failure)
    end
  end.

(** The first field of [fds] whose template text the engine rejects. *)
Fixpoint spec_first_parse_failure (g : GitHubNotification) (name : string)
    (f : FuncMap) (fds : list Field) : option (Field * error) :=
  match fds with
  | [] => None
  | fd :: rest =>
    match tt_Parse name f (template_text g fd) with
    | Err e => Some (fd, e)
    | Ok _ => spec_first_parse_failure g name f rest
    end
  end.

End Templating.

(** ** gitHubService.Send (github.go, lines 177-202) *)

(** The arguments of one [Repositories.CreateStatus] request. *)
Record StatusCall : Type := mkStatusCall {
  call_owner : string;
  call_repo : string;
  call_ref : string;
  status_State : string;
  status_Description : string;
  status_Context : string;
  status_TargetURL : string
}.

Record GitHubOptions : Type := mkGitHubOptions {
  AppID : Z;
  InstallationID : Z;
  PrivateKey : string;
  EnterpriseBaseURL : string
}.

(** The service value.  Its [client] stands for
    [client.Repositories.CreateStatus] of go-github, an external package:
    of what that call returns, [Send] looks at the error only. *)
Record gitHubService : Type := mkGitHubService {
  opts : GitHubOptions;
  client : StatusCall -> option error
}.

(** The index expression [u[i]]. *)
Definition go_index {A} (u : list A) (i : nat) : outcome A :=
  match u !! i with
  | Some x => Returns x
  | None => Panics (PanicIndex (Z.of_nat i) (Z.of_nat (length u)))
  end.

(** [Send] gives the requests it issued, in order, and how it ended. *)
Definition Send `{GitURLs} (g : gitHubService) (h : PayloadStore)
    (notification : Notification) (_ : Destination)
    : list StatusCall * outcome (option error) :=
  match GitHub notification with
  | None => ([], Returns (Some (fmt_Errorf "config is empty")))
  | Some l =>
    let gh := h !!! l in
    let prepared :=
      call full <- fullNameByRepoURL (RepoURL gh);
      let u := strings_Split full "/" in
      call description <- trunc (Message notification) 140;
      call u0 <- go_index u 0;
      call u1 <- go_index u 1;
      Returns (mkStatusCall u0 u1 (Revision gh)
                 (State gh) description (Label gh) (TargetURL gh)) in
    match prepared with
    | Panics p => ([], Panics p)
    | Returns c =>
      match client g c with
      | Some err => ([c], Returns (Some err))
      | None => ([c], Returns None)
      end
    end
  end.

(** ** Reference instances of the external packages

    Small executable stand-ins for git-urls, text/template and the status
    client.  The properties below hold for every parser, engine and
    client; these ones serve to run the service on concrete inputs. *)
Module Reference.

(** *** git-urls: transport URLs, SCP-like addresses, local paths *)

Definition is_alnum (c : ascii) : bool :=
  let n := byteZ c in
  ((48 <=? n) && (n <=? 57)) || ((65 <=? n) && (n <=? 90))
  || ((97 <=? n) && (n <=? 122)).

Definition is_letter (c : ascii) : bool :=
  let n := byteZ c in
  ((65 <=? n) && (n <=? 90)) || ((97 <=? n) && (n <=? 122)).

Definition char_in (set : string) (c : ascii) : bool :=
  existsb (Ascii.eqb c) (list_ascii_of_string set).

Fixpoint string_forall (p : ascii -> bool) (s : string) : bool :=
  match s with
  | EmptyString => true
  | String c t => p c && string_forall p t
  end.

(** The longest prefix of [s] whose characters satisfy [p], and the rest. *)
Fixpoint span (p : ascii -> bool) (s : string) : string * string :=
  match s with
  | EmptyString => (EmptyString, EmptyString)
  | String c t =>
    if p c then let '(a, b) := span p t in (String c a, b)
    else (EmptyString, s)
  end.

(** [strings.Cut] at the first occurrence of one character. *)
Definition cut (sep : ascii) (s : string) : option (string * string) :=
  match span (fun c => negb (Ascii.eqb c sep)) s with
  | (a, String _ b) => Some (a, b)
  | (_, EmptyString) => None
  end.

Definition lower (c : ascii) : ascii :=
  let n := byteZ c in
  if (65 <=? n) && (n <=? 90) then Zbyte (n + 32) else c.

Fixpoint to_lower (s : string) : string :=
  match s with
  | EmptyString => EmptyString
  | String c t => String (lower c) (to_lower t)
  end.

Definition Transports : list string :=
  ["ssh"; "git"; "git+ssh"; "http"; "https"; "ftp"; "ftps"; "rsync"; "file"].

Definition valid_transport (scheme : string) : bool :=
  existsb (String.eqb scheme) Transports.

(** [url.Parse] for the shapes [scheme://[user@]host[/path][?query][#frag]]
    and [scheme:/path]; escapes, ports and bracketed hosts are left as
    they are written. *)
Definition url_Parse (rawurl : string) : result URL :=
  let noFrag := match cut "#" rawurl with Some (a, _) => a | None => rawurl end in
  let '(body, query) :=
    match cut "?" noFrag with Some (a, q) => (a, q) | None => (noFrag, "") end in
  match cut ":" body with
  | Some (String c0 sch, rest) =>
    if is_letter c0 && string_forall (fun c => is_alnum c || char_in "+-." c) sch
    then
      if String.prefix "//" rest then
        let '(authority, path) :=
          span (fun c => negb (Ascii.eqb c "/")) (string_drop 2 rest) in
        let '(user, host) :=
          match cut "@" authority with
          | Some (u, h) => (Some u, h)
          | None => (None, authority)
          end in
        Ok (mkURL (to_lower (String c0 sch)) user host path query)
      else if String.prefix "/" rest then
        Ok (mkURL (to_lower (String c0 sch)) None "" rest query)
      else Ok (mkURL (to_lower (String c0 sch)) None "" "" query)
    else Err "first path segment in URL cannot contain colon"
  | Some (EmptyString, _) => Err "missing protocol scheme"
  | None => Ok (mkURL "" None "" body query)
  end.

Definition ParseTransport (rawurl : string) : result URL :=
  match url_Parse rawurl with
  | Ok u =>
    if valid_transport (Scheme u) then Ok u
    else Err ("scheme " +:+ Scheme u +:+ " is not a valid transport")
  | Err e => Err e
  end.

(** [scpSyntax]: an optional user (letters, digits, underscore) before
    an at sign, a host (letters, digits, dot, underscore, dash), a colon,
    a path (the host's characters and slash), an optional question mark
    and the remainder. *)
Definition ParseScp (rawurl : string) : result URL :=
  let noMatch := Err ("no scp URL found in " +:+ rawurl) in
  let '(user, afterUser) :=
    match span (fun c => is_alnum c || char_in "_" c) rawurl with
    | (String c u, String "@" rest) => (Some (String c u), rest)
    | _ => (None, rawurl)
    end in
  match span (fun c => is_alnum c || char_in "._-" c) afterUser with
  | (String h0 h, String ":" afterHost) =>
    match span (fun c => is_alnum c || char_in "./_-" c) afterHost with
    | (String p0 p, rest) =>
      let query := match rest with String "?" q => q | _ => rest end in
      Ok (mkURL "ssh" user (String h0 h) (String p0 p) query)
    | _ => noMatch
    end
  | _ => noMatch
  end.

Definition ParseLocal (rawurl : string) : result URL :=
  Ok (mkURL "file" None "" rawurl "").

(** Apply each parser in turn and accept the first success. *)
Fixpoint first_success (parsers : list (string -> result URL))
    (rawurl : string) : result URL :=
  match parsers with
  | [] => Err ("failed to parse " +:+ rawurl)
  | p :: ps =>
    match p rawurl with
    | Ok u => Ok u
    | Err _ => first_success ps rawurl
    end
  end.

(** The parser with its three stages. *)
Definition giturls : GitURLs :=
  {| giturls_Parse := first_success [ParseTransport; ParseScp; ParseLocal] |}.

(** The same three stages for any two remote stages: whatever these
    are, the local-path stage comes last and takes every string. *)
Definition giturls_with (transport scp : string -> result URL) : GitURLs :=
  {| giturls_Parse := first_success [transport; scp; ParseLocal] |}.

(** *** text/template: literal text and field chains [{{.a.b.c}}] *)

Inductive node : Type :=
| NText (s : string)
| NField (path : list string).

#[local] Set Warnings "-register-all".
Inductive value : Type :=
| VString (s : string)
| VMap (entries : list (string * value)).

Definition parse_error (name msg : string) : error :=
  "template: " +:+ name +:+ ":1: " +:+ msg.

Definition text_node (cur : string) : list node :=
  if String.eqb cur "" then [] else [NText cur].

Definition is_space (c : ascii) : bool := char_in " " c.

Definition trim_spaces (s : string) : string :=
  let s1 := snd (span is_space s) in
  fst (span (fun c => negb (is_space c)) s1).

(** The inside of [{{ }}]: a dot followed by names separated by dots. *)
Definition parse_action (name body : string) : result node :=
  match trim_spaces body with
  | String "." chain =>
    let path := strings_Split chain "." in
    if forallb (fun k => negb (String.eqb k "") && string_forall
                           (fun c => is_alnum c || char_in "_" c) k) path
    then Ok (NField path)
    else Err (parse_error name "unexpected token in command")
  | _ => Err (parse_error name "unexpected token in command")
  end.

Fixpoint parse_scan (name : string) (skip : nat) (inAction : bool)
    (cur s : string) : result (list node) :=
  match s with
  | EmptyString =>
    if inAction then Err (parse_error name "unclosed action")
    else Ok (text_node cur)
  | String c t =>
    match skip with
    | S k => parse_scan name k inAction cur t
    | O =>
      if inAction then
        if String.prefix "}}" s then
          try n <- parse_action name cur;
          try rest <- parse_scan name 1 false "" t;
          Ok (n :: rest)
        else parse_scan name O true (cur +:+ String c "") t
      else
        if String.prefix "{{" s then
          try rest <- parse_scan name 1 true "" t;
          Ok (text_node cur ++ rest)%list
        else parse_scan name O false (cur +:+ String c "") t
    end
  end.

Fixpoint assoc (k : string) (m : list (string * value)) : option value :=
  match m with
  | [] => None
  | (k', v) :: m' => if String.eqb k k' then Some v else assoc k m'
  end.

(** A key that a map does not have gives no value, and so does every
    field asked of no value: that renders as [<no value>], without an
    error.  A field asked of a string is an error. *)
Fixpoint eval_path (path : list string) (cur : option value)
    : result (option value) :=
  match path with
  | [] => Ok cur
  | k :: rest =>
    match cur with
    | None => Ok None
    | Some (VString _) => Err ("can't evaluate field " +:+ k +:+ " in type string")
    | Some (VMap m) => eval_path rest (assoc k m)
    end
  end.

Definition print_value (v : option value) : string :=
  match v with
  | Some (VString s) => s
  | Some (VMap _) => "map[]"
  | None => "<no value>"
  end.

(** Write the nodes to the buffer in order; stop at the first error and
    leave what was written. *)
Fixpoint exec_nodes (t : list node) (vars : value) (buf : string)
    : string * option error :=
  match t with
  | [] => (buf, None)
  | NText s :: t' => exec_nodes t' vars (buf +:+ s)
  | NField path :: t' =>
    match eval_path path (Some vars) with
    | Ok v => exec_nodes t' vars (buf +:+ print_value v)
    | Err e => (buf, Some e)
    end
  end.

(** The outside world of this engine is the log of executed templates. *)
Definition engine : TemplateEngine :=
  {| Template := list node;
     FuncMap := unit;
     Vars := value;
     World := list (list node);
     tt_Parse := fun name _ text => parse_scan name O false "" text;
     tt_Execute := fun t vars w => ((w ++ [t])%list, exec_nodes t vars "") |}.

(** *** Status clients: one that accepts every request, one that refuses *)

Definition app_options : GitHubOptions := mkGitHubOptions 1 1 "" "".

Definition client_ok : gitHubService :=
  mkGitHubService app_options (fun _ => None).
Definition client_down : gitHubService :=
  mkGitHubService app_options
    (fun _ => Some "POST https://api.github.com: 503").

(** *** Sample data *)

(** 150 code points in 300 bytes. *)
Definition long_message : string :=
  "añ€añ€añ€añ€añ€añ€añ€añ€añ€añ€añ€añ€añ€añ€añ€añ€añ€añ€añ€añ€añ€añ€añ€añ€añ€añ€añ€añ€añ€añ€añ€añ€añ€añ€añ€añ€añ€añ€añ€añ€añ€añ€añ€añ€añ€añ€añ€añ€añ€añ€".

(** A configuration with a template in every field, and what it compiles
    to. *)
Definition sample_config : GitHubNotification :=
  mkGitHubNotification "{{.state.phase}}" "ci" "{{.url}}" "{{.repo}}" "{{.rev}}".

Definition sample_templates : @CompiledTemplates engine :=
  @mkCompiled engine
    [NField ["repo"]] [NField ["rev"]] [NField ["state"; "phase"]]
    [NText "ci"] [NField ["url"]].

(** A context with every path the sample templates follow, and one in
    which [.state] is a string, so that the third execution, of
    [{{.state.phase}}], fails. *)
Definition vars_full : value :=
  VMap [("repo", VString "https://github.com/o/r.git");
        ("rev", VString "abc123");
        ("state", VMap [("phase", VString "success")]);
        ("url", VString "http://x")].

Definition vars_flat_state : value :=
  VMap [("repo", VString "https://github.com/o/r.git");
        ("rev", VString "abc123");
        ("state", VString "success");
        ("url", VString "http://x")].

(** The context of the default-template scenario. *)
Definition vars_app : value :=
  VMap [("app", VMap [("spec", VMap [("source",
          VMap [("repoURL", VString "https://x/y/z.git")])])])].

(** The all-empty configuration: both defaults are compiled. *)
Definition default_templates : @CompiledTemplates engine :=
  @mkCompiled engine
    [NField ["app"; "spec"; "source"; "repoURL"]]
    [NField ["app"; "status"; "operationState"; "syncResult"; "revision"]]
    [] [] [].

(** Configurations with an unclosed action in one field. *)
Definition bad_repoURL_config : GitHubNotification :=
  mkGitHubNotification "" "" "" "{{.repo" "".

Definition bad_revision_config : GitHubNotification :=
  mkGitHubNotification "" "" "" "{{.repo}}" "{{.repo".

(** The sample configuration with an empty [State]. *)
Definition empty_state_config : GitHubNotification :=
  mkGitHubNotification "" "ci" "{{.url}}" "{{.repo}}" "{{.rev}}".

(** An empty [State] before a target URL template whose execution fails
    on [vars_full], where [.url] is a string. *)
Definition empty_state_late_failure_config : GitHubNotification :=
  mkGitHubNotification "" "ci" "{{.url.host}}" "{{.repo}}" "{{.rev}}".

(** A payload left by an earlier run. *)
Definition stale_payload : GitHubNotification :=
  mkGitHubNotification "failure" "old-label" "http://old" "old-repo" "old-rev".

(** A store with one payload object, at address 1. *)
Definition store_with (p : GitHubNotification) : PayloadStore :=
  {[ 1%positive := p ]}.

Definition payload_for (repo : string) : GitHubNotification :=
  mkGitHubNotification "success" "ci" "http://x" repo "abc123".

Definition notify (message : string) : Notification :=
  mkNotification message (Some 1%positive).

Definition nowhere : Destination := mkDestination "github" "".

End Reference.


(** * Properties *)

(** ** Bytes and UTF-8 *)

Lemma byteZ_range (c : ascii) : 0 <= byteZ c < 256.
Proof.
  unfold byteZ. pose proof (N_ascii_bounded c). lia.
Qed.

Lemma byteZ_Zbyte (z : Z) : 0 <= z < 256 -> byteZ (Zbyte z) = z.
Proof.
  intros Hz. unfold byteZ, Zbyte.
  rewrite N_ascii_embedding by lia. lia.
Qed.

Ltac cmp_cases :=
  repeat match goal with
  | |- context [?a <=? ?b] => destruct (Z.leb_spec a b); try lia
  | |- context [?a <? ?b] => destruct (Z.ltb_spec a b); try lia
  | |- context [?a =? ?b] => destruct (Z.eqb_spec a b); try lia
  end; simpl.

Ltac dlia := Z.to_euclidean_division_equations; lia.

Lemma first_inv (b : Z) (sz : nat) (lo hi : Z) :
  first b = Some (sz, (lo, hi)) ->
  (sz = 2%nat /\ 0xC2 <= b <= 0xDF /\ lo = 0x80 /\ hi = 0xBF)
  \/ (sz = 3%nat /\ 0xE0 <= b <= 0xEF
      /\ lo = (if b =? 0xE0 then 0xA0 else 0x80)
      /\ hi = (if b =? 0xED then 0x9F else 0xBF))
  \/ (sz = 4%nat /\ 0xF0 <= b <= 0xF4
      /\ lo = (if b =? 0xF0 then 0x90 else 0x80)
      /\ hi = (if b =? 0xF4 then 0x8F else 0xBF)).
Proof.
  unfold first. cmp_cases; intros [= <- <- <-] || intros [=]; cmp_cases; lia.
Qed.

Lemma first_two (b : Z) :
  0xC2 <= b <= 0xDF -> first b = Some (2%nat, (0x80, 0xBF)).
Proof. intros Hb. unfold first. cmp_cases; reflexivity. Qed.

Lemma first_three (b : Z) :
  0xE0 <= b <= 0xEF ->
  first b = Some (3%nat, (if b =? 0xE0 then 0xA0 else 0x80,
                          if b =? 0xED then 0x9F else 0xBF)).
Proof. intros Hb. unfold first. cmp_cases; reflexivity. Qed.

Lemma first_four (b : Z) :
  0xF0 <= b <= 0xF4 ->
  first b = Some (4%nat, (if b =? 0xF0 then 0x90 else 0x80,
                          if b =? 0xF4 then 0x8F else 0xBF)).
Proof. intros Hb. unfold first. cmp_cases; reflexivity. Qed.

Lemma first_ascii (b : Z) : b < 0x80 -> first b = None.
Proof. intros Hb. unfold first. cmp_cases; reflexivity. Qed.

Lemma Decode_ascii (c0 : ascii) (t : string) :
  byteZ c0 < 0x80 -> DecodeRuneInString (String c0 t) = (byteZ c0, 1%nat).
Proof.
  intros Hb. unfold DecodeRuneInString. rewrite first_ascii by lia.
  destruct (Z.ltb_spec (byteZ c0) 0x80); [reflexivity | lia].
Qed.

Lemma Decode_two (c0 c1 : ascii) (t : string) :
  0xC2 <= byteZ c0 <= 0xDF -> 0x80 <= byteZ c1 <= 0xBF ->
  DecodeRuneInString (String c0 (String c1 t))
  = (byteZ c0 mod 32 * 64 + byteZ c1 mod 64, 2%nat).
Proof.
  intros H0 H1. unfold DecodeRuneInString. rewrite first_two by lia.
  simpl. cmp_cases. reflexivity.
Qed.

Lemma Decode_three (c0 c1 c2 : ascii) (t : string) :
  0xE0 <= byteZ c0 <= 0xEF ->
  (if byteZ c0 =? 0xE0 then 0xA0 else 0x80) <= byteZ c1
    <= (if byteZ c0 =? 0xED then 0x9F else 0xBF) ->
  0x80 <= byteZ c2 <= 0xBF ->
  DecodeRuneInString (String c0 (String c1 (String c2 t)))
  = (byteZ c0 mod 16 * 4096 + byteZ c1 mod 64 * 64 + byteZ c2 mod 64, 3%nat).
Proof.
  intros H0 H1 H2. unfold DecodeRuneInString, is_cont.
  rewrite first_three by lia. simpl.
  destruct (Z.ltb_spec (byteZ c1) (if byteZ c0 =? 224 then 160 else 128));
    [lia |].
  destruct (Z.ltb_spec (if byteZ c0 =? 237 then 159 else 191) (byteZ c1));
    [lia |].
  simpl. cmp_cases. reflexivity.
Qed.

Lemma Decode_four (c0 c1 c2 c3 : ascii) (t : string) :
  0xF0 <= byteZ c0 <= 0xF4 ->
  (if byteZ c0 =? 0xF0 then 0x90 else 0x80) <= byteZ c1
    <= (if byteZ c0 =? 0xF4 then 0x8F else 0xBF) ->
  0x80 <= byteZ c2 <= 0xBF ->
  0x80 <= byteZ c3 <= 0xBF ->
  DecodeRuneInString (String c0 (String c1 (String c2 (String c3 t))))
  = (byteZ c0 mod 8 * 262144 + byteZ c1 mod 64 * 4096
     + byteZ c2 mod 64 * 64 + byteZ c3 mod 64, 4%nat).
Proof.
  intros H0 H1 H2 H3. unfold DecodeRuneInString, is_cont.
  rewrite first_four by lia. simpl.
  destruct (Z.ltb_spec (byteZ c1) (if byteZ c0 =? 240 then 144 else 128));
    [lia |].
  destruct (Z.ltb_spec (if byteZ c0 =? 244 then 143 else 191) (byteZ c1));
    [lia |].
  simpl. cmp_cases. reflexivity.
Qed.

(** Every rune that decoding produces is a scalar value, and decoding a
    non-empty string consumes between one byte and all of it. *)
Lemma Decode_valid (c : ascii) (t : string) :
  valid_rune (fst (DecodeRuneInString (String c t)))
  /\ (1 <= snd (DecodeRuneInString (String c t)) <= String.length (String c t))%nat.
Proof.
  assert (Herr : valid_rune RuneError)
    by (unfold valid_rune, RuneError, MaxRune, surrogateMin, surrogateMax; lia).
  pose proof (byteZ_range c) as Hc0.
  unfold DecodeRuneInString.
  destruct (first (byteZ c)) as [[sz [lo hi]]|] eqn:Hf.
  2:{ simpl. split; [|lia].
      destruct (Z.ltb_spec (byteZ c) 0x80); [|exact Herr].
      unfold valid_rune, MaxRune, surrogateMin, surrogateMax. lia. }
  apply first_inv in Hf.
  destruct (String.length (String c t) <? sz)%nat eqn:Hlen;
    [simpl; split; [exact Herr | lia] |].
  apply Nat.ltb_ge in Hlen. simpl in Hlen.
  destruct t as [|c1 t1]; [simpl; split; [exact Herr | lia] |].
  pose proof (byteZ_range c1) as Hc1.
  destruct ((byteZ c1 <? lo) || (hi <? byteZ c1)) eqn:Hacc;
    [simpl; split; [exact Herr | lia] |].
  apply orb_false_iff in Hacc. destruct Hacc as [Hlo Hhi].
  apply Z.ltb_ge in Hlo. apply Z.ltb_ge in Hhi.
  destruct Hf as [(-> & Hb & -> & ->) | [(-> & Hb & -> & ->) | (-> & Hb & -> & ->)]].
  - simpl. split; [|lia].
    unfold valid_rune, MaxRune, surrogateMin, surrogateMax. dlia.
  - simpl in Hlen. destruct t1 as [|c2 t2]; [simpl in Hlen; lia |].
    pose proof (byteZ_range c2) as Hc2.
    unfold is_cont.
    destruct ((128 <=? byteZ c2) && (byteZ c2 <=? 191)) eqn:Hc;
      [| simpl; split; [exact Herr | lia]].
    apply andb_true_iff in Hc. destruct Hc as [Hc2a Hc2b].
    apply Z.leb_le in Hc2a. apply Z.leb_le in Hc2b.
    simpl. split; [|lia].
    unfold valid_rune, MaxRune, surrogateMin, surrogateMax.
    destruct (Z.eqb_spec (byteZ c) 224); destruct (Z.eqb_spec (byteZ c) 237); dlia.
  - simpl in Hlen. destruct t1 as [|c2 t2]; [simpl in Hlen; lia |].
    pose proof (byteZ_range c2) as Hc2.
    unfold is_cont.
    destruct ((128 <=? byteZ c2) && (byteZ c2 <=? 191)) eqn:Hc;
      [| simpl; split; [exact Herr | lia]].
    apply andb_true_iff in Hc. destruct Hc as [Hc2a Hc2b].
    apply Z.leb_le in Hc2a. apply Z.leb_le in Hc2b.
    destruct t2 as [|c3 t3]; [simpl in Hlen; lia |].
    pose proof (byteZ_range c3) as Hc3.
    destruct ((128 <=? byteZ c3) && (byteZ c3 <=? 191)) eqn:Hc';
      [| simpl; split; [exact Herr | lia]].
    apply andb_true_iff in Hc'. destruct Hc' as [Hc3a Hc3b].
    apply Z.leb_le in Hc3a. apply Z.leb_le in Hc3b.
    simpl. split; [|lia].
    unfold valid_rune, MaxRune, surrogateMin, surrogateMax.
    destruct (Z.eqb_spec (byteZ c) 240); destruct (Z.eqb_spec (byteZ c) 244); dlia.
Qed.

Lemma append_cons (c : ascii) (s t : string) :
  String c s +:+ t = String c (s +:+ t).
Proof. reflexivity. Qed.

Lemma append_nil (t : string) : "" +:+ t = t.
Proof. reflexivity. Qed.

Ltac push_append :=
  rewrite ?append_cons, ?append_nil; cbn [String.length string_drop].

(** Decoding reads back what encoding wrote, whatever follows it. *)
Lemma Decode_encodeRune (r : Z) (t : string) :
  valid_rune r ->
  DecodeRuneInString (encodeRune r +:+ t) = (r, String.length (encodeRune r))
  /\ string_drop (String.length (encodeRune r)) (encodeRune r +:+ t) = t
  /\ (1 <= String.length (encodeRune r))%nat.
Proof.
  intros [Hr Hs]. unfold MaxRune, surrogateMin, surrogateMax in *.
  unfold encodeRune, MaxRune, surrogateMin, surrogateMax.
  destruct (Z.leb_spec 0 r); [|lia].
  destruct (Z.leb_spec r 0x7F); simpl andb; cbv iota.
  { push_append. rewrite Decode_ascii; rewrite byteZ_Zbyte; try lia.
    repeat split; lia. }
  destruct (Z.leb_spec r 0x7FF); cbv iota.
  { push_append. rewrite Decode_two; rewrite ?byteZ_Zbyte; try dlia.
    repeat split; try lia. f_equal. dlia. }
  assert (Hif : (r <? 0) || (1114111 <? r)
                || ((55296 <=? r) && (r <=? 57343)) = false)
    by (cmp_cases; reflexivity).
  rewrite Hif.
  destruct (Z.leb_spec r 0xFFFF); cbv iota; push_append.
  - pose proof (byteZ_Zbyte (224 + r / 4096) ltac:(dlia)) as E0.
    pose proof (byteZ_Zbyte (128 + r / 64 mod 64) ltac:(dlia)) as E1.
    pose proof (byteZ_Zbyte (128 + r mod 64) ltac:(dlia)) as E2.
    rewrite Decode_three; rewrite ?E0, ?E1, ?E2.
    + repeat split; try lia. f_equal. dlia.
    + dlia.
    + destruct (Z.eqb_spec (224 + r / 4096) 224);
        destruct (Z.eqb_spec (224 + r / 4096) 237); dlia.
    + dlia.
  - pose proof (byteZ_Zbyte (240 + r / 262144) ltac:(dlia)) as E0.
    pose proof (byteZ_Zbyte (128 + r / 4096 mod 64) ltac:(dlia)) as E1.
    pose proof (byteZ_Zbyte (128 + r / 64 mod 64) ltac:(dlia)) as E2.
    pose proof (byteZ_Zbyte (128 + r mod 64) ltac:(dlia)) as E3.
    rewrite Decode_four; rewrite ?E0, ?E1, ?E2, ?E3.
    + repeat split; try lia. f_equal. dlia.
    + dlia.
    + destruct (Z.eqb_spec (240 + r / 262144) 240);
        destruct (Z.eqb_spec (240 + r / 262144) 244); dlia.
    + dlia.
    + dlia.
Qed.

Lemma string_drop_length (k : nat) (s : string) :
  String.length (string_drop k s) = (String.length s - k)%nat.
Proof.
  revert s. induction k as [|k IH]; intros [|c t]; simpl; try lia.
  apply IH.
Qed.

(** Any iteration bound from the length of the string on gives the same
    runes: the loop has ended by then. *)
Lemma runes_loop_fuel (f1 f2 : nat) (s : string) :
  (String.length s <= f1)%nat -> (String.length s <= f2)%nat ->
  runes_loop f1 s = runes_loop f2 s.
Proof.
  revert f2 s. induction f1 as [|f1 IH]; intros f2 s H1 H2.
  - destruct s; [|simpl in H1; lia]. destruct f2; reflexivity.
  - destruct s as [|c t]; [destruct f2; reflexivity|].
    destruct f2 as [|f2]; [simpl in H2; lia|].
    cbn [runes_loop].
    pose proof (Decode_valid c t) as [_ Hw].
    destruct (DecodeRuneInString (String c t)) as [r w]. cbn [snd] in Hw.
    f_equal. apply IH; rewrite string_drop_length; lia.
Qed.

Lemma stringToRunes_step (s : string) :
  s <> "" ->
  stringToRunes s
  = fst (DecodeRuneInString s)
    :: stringToRunes (string_drop (snd (DecodeRuneInString s)) s).
Proof.
  destruct s as [|c t]; [congruence|]. intros _.
  unfold stringToRunes at 1. cbn [String.length runes_loop].
  pose proof (Decode_valid c t) as [_ Hw].
  destruct (DecodeRuneInString (String c t)) as [r w]. cbn [fst snd] in *.
  f_equal. apply runes_loop_fuel; rewrite ?string_drop_length; simpl; lia.
Qed.

Lemma runes_loop_valid (f : nat) (s : string) :
  Forall valid_rune (runes_loop f s).
Proof.
  revert s. induction f as [|f IH]; intros s; [constructor|].
  destruct s as [|c t]; [constructor|]. cbn [runes_loop].
  pose proof (Decode_valid c t) as [Hv _].
  destruct (DecodeRuneInString (String c t)) as [r w].
  constructor; [exact Hv | apply IH].
Qed.

Lemma stringToRunes_valid (s : string) : Forall valid_rune (stringToRunes s).
Proof. apply runes_loop_valid. Qed.

Lemma append_assoc' (a b c : string) : (a +:+ b) +:+ c = a +:+ (b +:+ c).
Proof.
  induction a as [|x a IH]; [reflexivity|].
  rewrite !append_cons. f_equal. exact IH.
Qed.

Lemma append_empty_r (a : string) : a +:+ "" = a.
Proof.
  induction a as [|x a IH]; [reflexivity|].
  rewrite append_cons. f_equal. exact IH.
Qed.

(** Converting scalar values to a string and back gives them again, and
    the conversion of what follows is not disturbed. *)
Lemma stringToRunes_runesToString (rs : list Z) (t : string) :
  Forall valid_rune rs ->
  stringToRunes (runesToString rs +:+ t) = (rs ++ stringToRunes t)%list.
Proof.
  induction 1 as [|r rs Hr _ IH]; [reflexivity|].
  cbn [runesToString]. rewrite append_assoc'.
  destruct (Decode_encodeRune r (runesToString rs +:+ t) Hr) as (Hd & Hdrop & Hlen).
  rewrite stringToRunes_step.
  - rewrite Hd. cbn [fst snd]. rewrite Hdrop, IH. reflexivity.
  - intros Hempty. rewrite Hempty in Hd. apply (f_equal snd) in Hd.
    cbn [DecodeRuneInString snd] in Hd. lia.
Qed.

(** ** trunc *)

Lemma trunc_140_short (message : string) :
  RuneCountInString message <= 140 -> trunc message 140 = Returns message.
Proof.
  intros Hle. unfold trunc.
  destruct (Z.gtb_spec (RuneCountInString message) 140); [lia | reflexivity].
Qed.

Lemma trunc_140_long (message : string) :
  140 < RuneCountInString message ->
  let kept := runesToString (take 137 (stringToRunes message)) in
  trunc message 140 = Returns (kept +:+ "...")
  /\ stringToRunes kept = take 137 (stringToRunes message)
  /\ stringToRunes (kept +:+ "...")
     = (take 137 (stringToRunes message) ++ stringToRunes "...")%list
  /\ RuneCountInString (kept +:+ "...") = 140.
Proof.
  intros Hgt kept. unfold RuneCountInString in Hgt.
  assert (Hv : Forall valid_rune (take 137 (stringToRunes message)))
    by (apply Forall_take, stringToRunes_valid).
  assert (Hrt : stringToRunes (kept +:+ "...")
                = (take 137 (stringToRunes message) ++ stringToRunes "...")%list)
    by (apply stringToRunes_runesToString, Hv).
  repeat split.
  - unfold trunc, RuneCountInString.
    destruct (Z.gtb_spec (Z.of_nat (length (stringToRunes message))) 140); [|lia].
    change (int_wrap (140 - 3)) with 137. unfold slice_to.
    destruct (Z.leb_spec 137 (Z.of_nat (length (stringToRunes message)))); [|lia].
    reflexivity.
  - rewrite <- (append_empty_r kept).
    unfold kept. rewrite stringToRunes_runesToString by exact Hv.
    change (stringToRunes "") with (@nil Z). apply app_nil_r.
  - exact Hrt.
  - unfold RuneCountInString. rewrite Hrt, length_app, length_take.
    change (length (stringToRunes "...")) with 3%nat. lia.
Qed.

Lemma trunc_140_returns (message : string) :
  exists description, trunc message 140 = Returns description.
Proof.
  destruct (Z.le_gt_cases (RuneCountInString message) 140) as [Hle | Hgt].
  - eexists. apply trunc_140_short, Hle.
  - eexists. apply (trunc_140_long message Hgt).
Qed.

(** C4: [trunc(message, 140)] returns the message unchanged when it has at
    most 140 code points; otherwise it returns the first 137 code points
    followed by ["..."], a string of exactly 140 code points that ends
    with ["..."]. *)
Theorem trunc_140_spec (message : string) :
  (RuneCountInString message <= 140 -> trunc message 140 = Returns message)
  /\ (140 < RuneCountInString message ->
      exists kept,
        trunc message 140 = Returns (kept +:+ "...")
        /\ stringToRunes kept = take 137 (stringToRunes message)
        /\ stringToRunes (kept +:+ "...")
           = (take 137 (stringToRunes message) ++ stringToRunes "...")%list
        /\ RuneCountInString (kept +:+ "...") = 140).
Proof.
  split; [apply trunc_140_short|].
  intros Hgt. eexists. apply (trunc_140_long message Hgt).
Qed.

Lemma trunc_140_spec_witness :
  trunc "deployed" 140 = Returns "deployed"
  /\ exists kept,
       trunc Reference.long_message 140 = Returns (kept +:+ "...")
       /\ stringToRunes kept = take 137 (stringToRunes Reference.long_message)
       /\ stringToRunes (kept +:+ "...")
          = (take 137 (stringToRunes Reference.long_message)
             ++ stringToRunes "...")%list
       /\ RuneCountInString (kept +:+ "...") = 140.
Proof.
  split.
  - apply (proj1 (trunc_140_spec "deployed")). vm_compute. discriminate.
  - apply (proj2 (trunc_140_spec Reference.long_message)). vm_compute. reflexivity.
Defined.

Example trunc_long_message :
  RuneCountInString Reference.long_message = 150
  /\ trunc Reference.long_message 140
     = Returns (string_take 273 Reference.long_message +:+ "...").
Proof. vm_compute. split; reflexivity. Qed.

(** Invalid bytes are counted one rune each and come out as U+FFFD. *)
Example trunc_invalid_bytes :
  let bad := String (Zbyte 0xFF) (String (Zbyte 0x80) "abcd") in
  RuneCountInString bad = 6
  /\ trunc bad 5 = Returns (runesToString [RuneError; RuneError] +:+ "...").
Proof. vm_compute. split; reflexivity. Qed.

(** C5: truncation to 140 code points is idempotent. *)
Theorem trunc_140_idempotent (message : string) :
  (call once <- trunc message 140; trunc once 140) = trunc message 140.
Proof.
  destruct (Z.le_gt_cases (RuneCountInString message) 140) as [Hle | Hgt].
  - rewrite (trunc_140_short message Hle). cbn [obind].
    apply trunc_140_short, Hle.
  - destruct (trunc_140_long message Hgt) as (Ht & _ & _ & Hcount).
    rewrite Ht. cbn [obind]. apply trunc_140_short. lia.
Qed.

(** ** Splitting on slashes and the [.git] suffix *)

Lemma prefix_slash (c : ascii) (t : string) :
  String.prefix "/" (String c t) = Ascii.eqb c "/".
Proof.
  cbn [String.prefix]. destruct (ascii_dec "/" c) as [<- | Hne].
  - destruct t; reflexivity.
  - symmetry. apply Ascii.eqb_neq. congruence.
Qed.

(** A string without a slash is a single piece. *)
Lemma Split_scan_no_slash (cur s : string) :
  string_mem "/" s = false -> Split_scan "/" O cur s = [cur +:+ s].
Proof.
  revert cur. induction s as [|c t IH]; intros cur Hmem.
  - cbn [Split_scan]. rewrite append_empty_r. reflexivity.
  - cbn [string_mem] in Hmem. apply orb_false_iff in Hmem.
    destruct Hmem as [Hc Ht].
    cbn [Split_scan]. rewrite prefix_slash, Hc.
    rewrite (IH _ Ht), append_assoc'. reflexivity.
Qed.

(** The piece before the first slash is cut off there. *)
Lemma Split_scan_slash (cur a rest : string) :
  string_mem "/" a = false ->
  Split_scan "/" O cur (a +:+ String "/" rest)
  = (cur +:+ a) :: Split_scan "/" O "" rest.
Proof.
  revert cur. induction a as [|c t IH]; intros cur Hmem.
  - rewrite append_nil, append_empty_r. cbn [Split_scan].
    rewrite prefix_slash. reflexivity.
  - cbn [string_mem] in Hmem. apply orb_false_iff in Hmem.
    destruct Hmem as [Hc Ht].
    rewrite append_cons. cbn [Split_scan]. rewrite prefix_slash, Hc.
    rewrite (IH _ Ht), append_assoc'. reflexivity.
Qed.

Lemma strings_Split_no_slash (s : string) :
  string_mem "/" s = false -> strings_Split s "/" = [s].
Proof. intros Hmem. unfold strings_Split. cbn [String.eqb]. 
  apply (Split_scan_no_slash "" s Hmem). Qed.

Lemma append_length (a b : string) :
  String.length (a +:+ b) = (String.length a + String.length b)%nat.
Proof.
  induction a as [|c a IH]; [reflexivity|].
  rewrite append_cons. cbn [String.length]. rewrite IH. reflexivity.
Qed.

(** A final [.git] is removed, and nothing else. *)
Lemma gitSuffix_strip (s : string) :
  gitSuffix_ReplaceAllString (s +:+ ".git") "" = s.
Proof.
  induction s as [|c t IH]; [reflexivity|].
  rewrite append_cons. cbn [gitSuffix_ReplaceAllString].
  destruct (String.eqb_spec (String c (t +:+ ".git")) ".git") as [Heq | _].
  - apply (f_equal String.length) in Heq. cbn [String.length] in Heq.
    rewrite append_length in Heq. cbn [String.length] in Heq. lia.
  - rewrite IH. reflexivity.
Qed.

(** ** fullNameByRepoURL *)

Section Resolver.
Context `{GitURLs}.

(** What the resolver returns once the URL has been parsed. *)
Lemma fullNameByRepoURL_parsed (rawURL path : string) :
  parsed_path rawURL = Ok path ->
  fullNameByRepoURL rawURL
  = Returns (let stripped := gitSuffix_ReplaceAllString path "" in
             match SplitRemoveEmpty stripped "/" with
             | owner :: repo :: _ => owner +:+ "/" +:+ repo
             | _ => stripped
             end).
Proof.
  unfold parsed_path, fullNameByRepoURL.
  destruct (giturls_Parse rawURL) as [u | e]; [|discriminate].
  intros [= <-]. cbv zeta.
  destruct (SplitRemoveEmpty _ "/") as [|a [|b rest]]; reflexivity.
Qed.

(** A path [/owner/repo.git] or [owner/repo.git] resolves to
    [owner/repo]. *)
Lemma fullNameByRepoURL_owner_repo (rawURL lead owner repo : string) :
  parsed_path rawURL = Ok (lead +:+ owner +:+ "/" +:+ repo +:+ ".git") ->
  lead = "" \/ lead = "/" ->
  owner <> "" -> repo <> "" ->
  string_mem "/" owner = false -> string_mem "/" repo = false ->
  fullNameByRepoURL rawURL = Returns (owner +:+ "/" +:+ repo).
Proof.
  intros Hp Hlead Ho Hr Hmo Hmr.
  rewrite (fullNameByRepoURL_parsed _ _ Hp). cbv zeta.
  replace (lead +:+ owner +:+ "/" +:+ repo +:+ ".git")
    with ((lead +:+ owner +:+ "/" +:+ repo) +:+ ".git")
    by (rewrite !append_assoc'; reflexivity).
  rewrite gitSuffix_strip.
  assert (Hsplit : SplitRemoveEmpty (lead +:+ owner +:+ "/" +:+ repo) "/"
                   = [owner; repo]).
  { unfold SplitRemoveEmpty, strings_Split. cbn [String.eqb].
    assert (Hrest : Split_scan "/" 0 "" (owner +:+ "/" +:+ repo)
                    = [owner; repo]).
    { change (owner +:+ "/" +:+ repo) with (owner +:+ String "/" repo).
      rewrite (Split_scan_slash "" owner repo Hmo).
      rewrite (Split_scan_no_slash "" repo Hmr). reflexivity. }
    assert (Hkeep : List.filter (fun item => negb (String.eqb item ""))
                      [owner; repo] = [owner; repo]).
    { cbn [List.filter].
      destruct (String.eqb_spec owner ""); [congruence|].
      destruct (String.eqb_spec repo ""); [congruence|]. reflexivity. }
    destruct Hlead as [-> | ->].
    - rewrite append_nil, Hrest. exact Hkeep.
    - change ("/" +:+ owner +:+ "/" +:+ repo)
        with ("" +:+ String "/" (owner +:+ "/" +:+ repo)).
      rewrite (Split_scan_slash "" "" _ eq_refl), Hrest.
      cbn [List.filter String.append String.eqb negb]. exact Hkeep. }
  rewrite Hsplit. reflexivity.
Qed.

(** C8: the resolver maps [https://github.com/owner/repo.git] and
    [git@github.com:owner/repo.git] to [owner/repo]: it strips a final
    [.git], splits the path on [/] without the empty segments and joins
    the first two when there are at least two; for
    [https://github.com/owner] it returns a defined result, the stripped
    path [/owner]. *)
Theorem fullNameByRepoURL_examples :
  parsed_path "https://github.com/owner/repo.git" = Ok "/owner/repo.git" ->
  parsed_path "git@github.com:owner/repo.git" = Ok "owner/repo.git" ->
  parsed_path "https://github.com/owner" = Ok "/owner" ->
  fullNameByRepoURL "https://github.com/owner/repo.git" = Returns "owner/repo"
  /\ fullNameByRepoURL "git@github.com:owner/repo.git" = Returns "owner/repo"
  /\ fullNameByRepoURL "https://github.com/owner" = Returns "/owner"
  /\ (forall rawURL path,
        parsed_path rawURL = Ok path ->
        fullNameByRepoURL rawURL
        = Returns (let stripped := gitSuffix_ReplaceAllString path "" in
                   match SplitRemoveEmpty stripped "/" with
                   | owner :: repo :: _ => owner +:+ "/" +:+ repo
                   | _ => stripped
                   end)).
Proof.
  intros Hhttps Hscp Hone. repeat split.
  - rewrite (fullNameByRepoURL_parsed _ _ Hhttps). reflexivity.
  - rewrite (fullNameByRepoURL_parsed _ _ Hscp). reflexivity.
  - rewrite (fullNameByRepoURL_parsed _ _ Hone). reflexivity.
  - apply fullNameByRepoURL_parsed.
Qed.

End Resolver.

Lemma fullNameByRepoURL_examples_witness :
  @fullNameByRepoURL Reference.giturls "https://github.com/owner/repo.git"
    = Returns "owner/repo"
  /\ @fullNameByRepoURL Reference.giturls "git@github.com:owner/repo.git"
     = Returns "owner/repo"
  /\ @fullNameByRepoURL Reference.giturls "https://github.com/owner"
     = Returns "/owner".
Proof.
  pose proof (@fullNameByRepoURL_examples Reference.giturls
                eq_refl eq_refl eq_refl) as (H1 & H2 & H3 & _).
  exact (conj H1 (conj H2 H3)).
Defined.

(** The local-path stage takes what the remote stages reject, so the
    parser as a whole rejects nothing. *)
Lemma giturls_with_parsed (transport scp : string -> result URL)
    (rawURL : string) :
  exists path, @parsed_path (Reference.giturls_with transport scp) rawURL
               = Ok path.
Proof.
  unfold parsed_path. cbn.
  destruct (transport rawURL) as [u|e1]; [eexists; reflexivity|].
  destruct (scp rawURL) as [u|e2]; eexists; reflexivity.
Qed.




(** ** Send *)

Section Dispatch.
Context `{GitURLs}.

Lemma Send_without_payload (g : gitHubService) (h : PayloadStore)
    (n : Notification) (dest : Destination) :
  GitHub n = None ->
  Send g h n dest = ([], Returns (Some (fmt_Errorf "config is empty"))).
Proof. intros Hnil. unfold Send. rewrite Hnil. reflexivity. Qed.

(** C1, what the code does instead: when the resolved name contains no
    slash, [Send] neither returns an error nor issues a request; the
    index expression [u[1]] panics. *)
Theorem Send_single_piece_panics (g : gitHubService) (h : PayloadStore)
    (n : Notification) (dest : Destination) (l : loc) (full : string) :
  GitHub n = Some l ->
  fullNameByRepoURL (RepoURL (h !!! l)) = Returns full ->
  string_mem "/" full = false ->
  Send g h n dest = ([], Panics (PanicIndex 1 1)).
Proof.
  intros Hl Hfull Hmem. unfold Send. rewrite Hl, Hfull. cbn [obind].
  rewrite (strings_Split_no_slash full Hmem).
  destruct (trunc_140_returns (Message n)) as [d ->]. reflexivity.
Qed.

(** With an owner and a repository, one request goes out, carrying the
    payload's fields and the truncated message, and what the client
    answers is returned as it is. *)
Lemma Send_owner_repo (g : gitHubService) (h : PayloadStore)
    (n : Notification) (dest : Destination) (l : loc)
    (owner repo description : string) :
  GitHub n = Some l ->
  fullNameByRepoURL (RepoURL (h !!! l)) = Returns (owner +:+ "/" +:+ repo) ->
  string_mem "/" owner = false -> string_mem "/" repo = false ->
  trunc (Message n) 140 = Returns description ->
  let request :=
    mkStatusCall owner repo (Revision (h !!! l)) (State (h !!! l))
      description (Label (h !!! l)) (TargetURL (h !!! l)) in
  Send g h n dest = ([request], Returns (client g request)).
Proof.
  intros Hl Hfull Hmo Hmr Htrunc request. unfold Send.
  rewrite Hl, Hfull. cbn [obind]. rewrite Htrunc. cbn [obind].
  unfold strings_Split. cbn [String.eqb].
  change (owner +:+ "/" +:+ repo) with (owner +:+ String "/" repo).
  rewrite (Split_scan_slash "" owner repo Hmo).
  rewrite (Split_scan_no_slash "" repo Hmr).
  rewrite !append_nil. cbn [go_index lookup list_lookup obind].
  fold request. destruct (client g request); reflexivity.
Qed.

End Dispatch.

Lemma Send_single_piece_panics_witness :
  @Send Reference.giturls Reference.client_ok
    (Reference.store_with (Reference.payload_for "git@github.com:owner"))
    (Reference.notify "deployed") Reference.nowhere
  = ([], Panics (PanicIndex 1 1)).
Proof.
  apply (@Send_single_piece_panics Reference.giturls Reference.client_ok
           _ _ _ 1%positive "owner").
  - reflexivity.
  - vm_compute. reflexivity.
  - reflexivity.
Defined.

(** The same happens for an empty repository URL. *)
Example Send_empty_repoURL_panics :
  @Send Reference.giturls Reference.client_ok
    (Reference.store_with (Reference.payload_for ""))
    (Reference.notify "deployed") Reference.nowhere
  = ([], Panics (PanicIndex 1 1)).
Proof. vm_compute. reflexivity. Qed.

(** A single segment behind a leading slash splits into two pieces, the
    first of them empty, and the request goes out with an empty owner. *)
Example Send_leading_slash_issues_request :
  @Send Reference.giturls Reference.client_ok
    (Reference.store_with (Reference.payload_for "https://github.com/owner"))
    (Reference.notify "deployed") Reference.nowhere
  = ([mkStatusCall "" "owner" "abc123" "success" "deployed" "ci" "http://x"],
     Returns None).
Proof. vm_compute. reflexivity. Qed.

(** An error of the client comes back unchanged, after the one request. *)
Example Send_client_error :
  @Send Reference.giturls Reference.client_down
    (Reference.store_with (Reference.payload_for "git@github.com:o/r.git"))
    (Reference.notify "deployed") Reference.nowhere
  = ([mkStatusCall "o" "r" "abc123" "success" "deployed" "ci" "http://x"],
     Returns (Some "POST https://api.github.com: 503")).
Proof. vm_compute. reflexivity. Qed.

(** The dispatch of a 150 code point message for [o/r]. *)
Example Send_end_to_end :
  @Send Reference.giturls Reference.client_ok
    (Reference.store_with (Reference.payload_for "https://github.com/o/r.git"))
    (Reference.notify Reference.long_message) Reference.nowhere
  = ([mkStatusCall "o" "r" "abc123" "success"
        (string_take 273 Reference.long_message +:+ "...") "ci" "http://x"],
     Returns None).
Proof. vm_compute. reflexivity. Qed.

(** ** Payload fields and the store *)

Lemma get_set_same (fd : Field) (v : string) (p : GitHubNotification) :
  get_field fd (set_field fd v p) = v.
Proof. destruct fd; reflexivity. Qed.

Lemma get_set_other (fd fd' : Field) (v : string) (p : GitHubNotification) :
  fd <> fd' -> get_field fd (set_field fd' v p) = get_field fd p.
Proof. destruct fd, fd'; intros Hne; try reflexivity; congruence. Qed.

Lemma apply_writes_untouched (written : list (Field * string)) (fd : Field)
    (p : GitHubNotification) :
  fd ∉ written.*1 -> get_field fd (apply_writes written p) = get_field fd p.
Proof.
  revert p. induction written as [|[fd' v] written IH]; intros p Hnot;
    [reflexivity|].
  cbn in Hnot. apply not_elem_of_cons in Hnot as [Hne Hnot].
  unfold apply_writes. cbn [foldl]. fold (apply_writes written (set_field fd' v p)).
  rewrite (IH _ Hnot). apply get_set_other, Hne.
Qed.

Lemma apply_writes_written (written : list (Field * string)) (fd : Field)
    (v : string) (p : GitHubNotification) :
  NoDup written.*1 -> (fd, v) ∈ written ->
  get_field fd (apply_writes written p) = v.
Proof.
  revert p. induction written as [|[fd' v'] written IH]; intros p Hnd Hin.
  - apply elem_of_nil in Hin. contradiction.
  - cbn in Hnd. apply NoDup_cons in Hnd as [Hfresh Hnd].
    unfold apply_writes. cbn [foldl].
    fold (apply_writes written (set_field fd' v' p)).
    apply elem_of_cons in Hin as [[= -> ->] | Hin].
    + rewrite (apply_writes_untouched _ _ _ Hfresh). apply get_set_same.
    + apply (IH _ Hnd Hin).
Qed.

Lemma write_fields_lookup (l : loc) (written : list (Field * string))
    (h : PayloadStore) :
  write_fields l written h !! l = apply_writes written <$> h !! l.
Proof.
  revert h. induction written as [|[fd v] written IH]; intros h.
  - cbn. destruct (h !! l); reflexivity.
  - unfold write_fields, apply_writes. cbn [foldl].
    fold (write_fields l written (alter (set_field fd v) l h)).
    rewrite IH, lookup_alter_eq. destruct (h !! l); reflexivity.
Qed.

Lemma write_fields_lookup_ne (l l' : loc) (written : list (Field * string))
    (h : PayloadStore) :
  l' <> l -> write_fields l written h !! l' = h !! l'.
Proof.
  intros Hne. revert h. induction written as [|[fd v] written IH]; intros h;
    [reflexivity|].
  unfold write_fields. cbn [foldl].
  fold (write_fields l written (alter (set_field fd v) l h)).
  rewrite IH. apply lookup_alter_ne. congruence.
Qed.

Lemma write_fields_dom (l : loc) (written : list (Field * string))
    (h : PayloadStore) :
  dom (write_fields l written h) = dom h.
Proof.
  revert h. induction written as [|[fd v] written IH]; intros h;
    [reflexivity|].
  unfold write_fields. cbn [foldl].
  fold (write_fields l written (alter (set_field fd v) l h)).
  rewrite IH. apply dom_alter_L.
Qed.

(** After the allocation step the pointer is set and refers to an object:
    the one that was there, or a new one with empty fields. *)
Lemma attach_payload_spec (n : Notification) (h : PayloadStore) :
  payload_valid n h ->
  let '(n0, h0, l) := attach_payload n h in
  GitHub n0 = Some l /\ Message n0 = Message n
  /\ (exists p, h0 !! l = Some p
                /\ match GitHub n with
                   | Some l' => l' = l /\ h !! l = Some p
                   | None => p = zeroGitHubNotification /\ h !! l = None
                   end).
Proof.
  intros Hvalid. unfold attach_payload.
  destruct (GitHub n) as [l|] eqn:Hl.
  - destruct (Hvalid l Hl) as [p Hp]. repeat split; [exact Hl|].
    exists p. auto.
  - repeat split. exists zeroGitHubNotification.
    rewrite lookup_insert_eq. repeat split.
    apply not_elem_of_dom, is_fresh.
Qed.

(** ** The closure of GetTemplater *)

Section Executor.
Context `{TemplateEngine}.

(** The closure does what the field-by-field description says: the
    executions in the fixed order up to the first failure, the outputs
    assigned to the payload at the pointer, the failure's error returned. *)
Lemma runTemplates_in_order (cs : CompiledTemplates) (n : Notification)
    (vars : Vars) (h : PayloadStore) (w : World) :
  runTemplates cs n vars h w
  = let '(n0, h0, l) := attach_payload n h in
    let '(w', written, failure) :=
      spec_execute_in_order cs vars field_order w in
    ((n0, write_fields l written h0, w'), snd <$> failure).
Proof.
  unfold runTemplates, attach_payload, field_order.
  cbn [spec_execute_in_order template_of].
  destruct (GitHub n) as [l|].
  all: destruct (tt_Execute (repoURL cs) vars w) as [w1 [o1 [e1|]]];
    [reflexivity|].
  all: destruct (tt_Execute (revision cs) vars w1) as [w2 [o2 [e2|]]];
    [reflexivity|].
  all: destruct (tt_Execute (state cs) vars w2) as [w3 [o3 [e3|]]];
    [reflexivity|].
  all: destruct (tt_Execute (label cs) vars w3) as [w4 [o4 [e4|]]];
    [reflexivity|].
  all: destruct (tt_Execute (targetURL cs) vars w4) as [w5 [o5 [e5|]]];
    reflexivity.
Qed.

(** The outputs come from a prefix of the fields: all of them on success,
    those before the failing field otherwise. *)
Lemma spec_execute_in_order_written (cs : CompiledTemplates) (vars : Vars)
    (fds : list Field) (w w' : World) (written : list (Field * string))
    (failure : option (Field * error)) :
  spec_execute_in_order cs vars fds w = (w', written, failure) ->
  match failure with
  | None => written.*1 = fds
  | Some (fd, _) =>
    fds !! length written = Some fd /\ written.*1 = take (length written) fds
  end.
Proof.
  revert w w' written failure.
  induction fds as [|fd rest IH]; intros w w' written failure.
  - cbn. intros [= <- <- <-]. reflexivity.
  - cbn [spec_execute_in_order].
    destruct (tt_Execute (template_of cs fd) vars w) as [w1 [out [e|]]].
    + intros [= <- <- <-]. split; reflexivity.
    + destruct (spec_execute_in_order cs vars rest w1)
        as [[w2 written'] failure'] eqn:Hrest.
      intros [= <- <- <-]. specialize (IH _ _ _ _ Hrest).
      destruct failure' as [[fd' e']|].
      * destruct IH as [Hfd Ht]. cbn. split; [exact Hfd | f_equal; exact Ht].
      * cbn. f_equal. exact IH.
Qed.

End Executor.

Lemma field_order_NoDup : NoDup field_order.
Proof. apply (bool_decide_unpack _). vm_compute. exact I. Qed.

Section ExecutorResult.
Context `{TemplateEngine}.

Lemma spec_execute_in_order_app (cs : CompiledTemplates) (vars : Vars)
    (fds1 fds2 : list Field) (w : World) :
  spec_execute_in_order cs vars (fds1 ++ fds2)%list w
  = match spec_execute_in_order cs vars fds1 w with
    | (w1, written1, None) =>
      let '(w2, written2, failure) := spec_execute_in_order cs vars fds2 w1 in
      (w2, (written1 ++ written2)%list, failure)
    | (w1, written1, Some failed) => (w1, written1, Some failed)
    end.
Proof.
  revert w. induction fds1 as [|fd rest IH]; intros w.
  - cbn. destruct (spec_execute_in_order cs vars fds2 w) as [[w2 wr2] fl].
    reflexivity.
  - cbn [spec_execute_in_order app].
    destruct (tt_Execute (template_of cs fd) vars w) as [w1 [out [e|]]];
      [reflexivity|].
    rewrite IH.
    destruct (spec_execute_in_order cs vars rest w1) as [[w2 wr1] [failed|]];
      [reflexivity|].
    destruct (spec_execute_in_order cs vars fds2 w2) as [[w3 wr2] fl].
    reflexivity.
Qed.

(** When the first [i] executions succeed and the next one fails, the
    sequence over all five fields ends there. *)
Lemma spec_execute_in_order_fails_at (cs : CompiledTemplates) (vars : Vars)
    (i : nat) (fd : Field) (w wi wf : World)
    (written : list (Field * string)) (buf : string) (e : error) :
  field_order !! i = Some fd ->
  spec_execute_in_order cs vars (take i field_order) w = (wi, written, None) ->
  tt_Execute (template_of cs fd) vars wi = (wf, (buf, Some e)) ->
  spec_execute_in_order cs vars field_order w = (wf, written, Some (fd, e)).
Proof.
  intros Hfd Hbefore Hfail.
  rewrite <- (take_drop_middle field_order i fd Hfd) at 1.
  rewrite spec_execute_in_order_app, Hbefore.
  cbn [spec_execute_in_order]. rewrite Hfail.
  rewrite app_nil_r. reflexivity.
Qed.

(** What a run of the closure leaves, in terms of the outputs [written]
    of the executions that succeeded. *)
Lemma runTemplates_result (cs : CompiledTemplates) (n : Notification)
    (vars : Vars) (h : PayloadStore) (w w' : World)
    (written : list (Field * string)) (failure : option (Field * error)) :
  payload_valid n h ->
  spec_execute_in_order cs vars field_order w = (w', written, failure) ->
  exists n' h' l p,
    runTemplates cs n vars h w = ((n', h', w'), snd <$> failure)
    /\ attach_payload n h = (n', <[l := p]> h, l)
    /\ GitHub n' = Some l
    /\ h' !! l = Some (apply_writes written p)
    /\ (forall l', l' <> l -> h' !! l' = h !! l')
    /\ (forall fd v, (fd, v) ∈ written ->
          get_field fd (apply_writes written p) = v)
    /\ (forall fd, fd ∉ written.*1 ->
          get_field fd (apply_writes written p) = get_field fd p).
Proof.
  intros Hvalid Hexec.
  pose proof (attach_payload_spec n h Hvalid) as Hattach.
  pose proof (runTemplates_in_order cs n vars h w) as Hrun.
  rewrite Hexec in Hrun.
  destruct (attach_payload n h) as [[n0 h0] l] eqn:Ha.
  destruct Hattach as (Hptr & _ & p & Hp & Hold).
  assert (Hh0 : h0 = <[l := p]> h).
  { unfold attach_payload in Ha. destruct (GitHub n) as [l0|].
    - destruct Hold as [-> Hhl]. injection Ha as _ <-.
      symmetry. apply insert_id, Hhl.
    - destruct Hold as [-> _]. injection Ha as _ <- <-. reflexivity. }
  assert (Hnd : NoDup written.*1).
  { pose proof (spec_execute_in_order_written _ _ _ _ _ _ _ Hexec) as Hw.
    destruct failure as [[fd e]|].
    - destruct Hw as [_ ->].
      eapply sublist_NoDup; [apply field_order_NoDup | apply sublist_take].
    - rewrite Hw. apply field_order_NoDup. }
  exists n0, (write_fields l written h0), l, p.
  repeat split.
  - exact Hrun.
  - rewrite Hh0. reflexivity.
  - exact Hptr.
  - rewrite write_fields_lookup, Hp. reflexivity.
  - intros l' Hne. rewrite write_fields_lookup_ne by exact Hne.
    rewrite Hh0. apply lookup_insert_ne. congruence.
  - intros fd v Hin. apply apply_writes_written; assumption.
  - intros fd Hnot. apply apply_writes_untouched, Hnot.
Qed.

End ExecutorResult.

Example sample_config_compiles :
  @compileTemplates Reference.engine Reference.sample_config "status" tt
  = Ok Reference.sample_templates.
Proof. vm_compute. reflexivity. Qed.

Section ExecutorClaims.
Context `{TemplateEngine}.

(** C3: the closure executes the five templates in the order repoURL,
    revision, state, label, targetURL.  When all succeed it returns nil
    with every field set to its output.  When the i-th execution fails
    after the earlier ones succeeded, it returns that error, the world is
    the one the failing execution left (no later template was executed),
    and the fields written before the failure hold their new values. *)
Theorem runTemplates_fixed_order_fail_fast (cs : CompiledTemplates)
    (n : Notification) (vars : Vars) (h : PayloadStore) (w : World) :
  payload_valid n h ->
  (forall w' written,
     spec_execute_in_order cs vars field_order w = (w', written, None) ->
     exists n' h' l p',
       runTemplates cs n vars h w = ((n', h', w'), None)
       /\ GitHub n' = Some l /\ h' !! l = Some p'
       /\ written.*1 = field_order
       /\ (forall fd v, (fd, v) ∈ written -> get_field fd p' = v))
  /\ (forall i fd wi written wf buf e,
        field_order !! i = Some fd ->
        spec_execute_in_order cs vars (take i field_order) w
          = (wi, written, None) ->
        tt_Execute (template_of cs fd) vars wi = (wf, (buf, Some e)) ->
        exists n' h' l p',
          runTemplates cs n vars h w = ((n', h', wf), Some e)
          /\ GitHub n' = Some l /\ h' !! l = Some p'
          /\ written.*1 = take i field_order
          /\ (forall fd' v, (fd', v) ∈ written -> get_field fd' p' = v)).
Proof.
  intros Hvalid. split.
  - intros w' written Hexec.
    destruct (runTemplates_result cs n vars h w w' written None Hvalid Hexec)
      as (n' & h' & l & p & Hrun & _ & Hptr & Hl & _ & Hnew & _).
    exists n', h', l, (apply_writes written p). repeat split; try assumption.
    apply (spec_execute_in_order_written _ _ _ _ _ _ _ Hexec).
  - intros i fd wi written wf buf e Hfd Hbefore Hfail.
    pose proof (spec_execute_in_order_fails_at cs vars i fd w wi wf written
                  buf e Hfd Hbefore Hfail) as Hexec.
    destruct (runTemplates_result cs n vars h w wf written (Some (fd, e))
                Hvalid Hexec)
      as (n' & h' & l & p & Hrun & _ & Hptr & Hl & _ & Hnew & _).
    exists n', h', l, (apply_writes written p). repeat split; try assumption.
    apply (spec_execute_in_order_written _ _ _ _ _ _ _ Hbefore).
Qed.

(** C10: a payload object that is already there is used as it is: the
    pointer stays, nothing is allocated, no other object changes; and when
    execution fails at field i, that field and every later one keep the
    value they had before the call. *)
Theorem runTemplates_reuses_payload (cs : CompiledTemplates)
    (n n' : Notification) (vars : Vars) (h h' : PayloadStore) (w w' : World)
    (res : option error) (l : loc) (p : GitHubNotification) :
  GitHub n = Some l -> h !! l = Some p ->
  runTemplates cs n vars h w = ((n', h', w'), res) ->
  n' = n
  /\ dom h' = dom h
  /\ (forall l', l' <> l -> h' !! l' = h !! l')
  /\ exists p', h' !! l = Some p'
     /\ forall i fd wi written wf buf e,
          field_order !! i = Some fd ->
          spec_execute_in_order cs vars (take i field_order) w
            = (wi, written, None) ->
          tt_Execute (template_of cs fd) vars wi = (wf, (buf, Some e)) ->
          res = Some e
          /\ forall j fdj, (i <= j)%nat -> field_order !! j = Some fdj ->
               get_field fdj p' = get_field fdj p.
Proof.
  intros Hl Hp Hrun.
  rewrite runTemplates_in_order in Hrun. unfold attach_payload in Hrun.
  rewrite Hl in Hrun.
  destruct (spec_execute_in_order cs vars field_order w)
    as [[w0 written0] failure0] eqn:Hexec.
  injection Hrun as <- <- <- <-.
  split; [reflexivity|]. split; [apply write_fields_dom|].
  split; [intros l' Hne; apply write_fields_lookup_ne, Hne|].
  exists (apply_writes written0 p).
  split; [rewrite write_fields_lookup, Hp; reflexivity|].
  intros i fd wi written wf buf e Hfd Hbefore Hfail.
  pose proof (spec_execute_in_order_fails_at cs vars i fd w wi wf written
                buf e Hfd Hbefore Hfail) as Hexec'.
  rewrite Hexec' in Hexec. injection Hexec as <- <- <-.
  split; [reflexivity|].
  intros j fdj Hij Hj. apply apply_writes_untouched.
  rewrite (spec_execute_in_order_written _ _ _ _ _ _ _ Hbefore).
  intros Hin. apply elem_of_take in Hin as (k & Hk & Hlt).
  pose proof (NoDup_lookup _ _ _ _ field_order_NoDup Hk Hj). lia.
Qed.

End ExecutorClaims.

Lemma payload_valid_nil (message : string) (h : PayloadStore) :
  payload_valid (mkNotification message None) h.
Proof. intros l Hl. discriminate Hl. Qed.

Lemma payload_valid_store_with (message : string) (p : GitHubNotification) :
  payload_valid (Reference.notify message) (Reference.store_with p).
Proof. intros l [= <-]. exists p. reflexivity. Qed.

Lemma runTemplates_fixed_order_fail_fast_witness :
  (exists n' h' l p',
     @runTemplates Reference.engine Reference.sample_templates
       (mkNotification "deployed" None) Reference.vars_full ∅ []
     = ((n', h',
         [[Reference.NField ["repo"]]; [Reference.NField ["rev"]];
          [Reference.NField ["state"; "phase"]]; [Reference.NText "ci"];
          [Reference.NField ["url"]]]), None)
     /\ GitHub n' = Some l /\ h' !! l = Some p'
     /\ [FRepoURL; FRevision; FState; FLabel; FTargetURL] = field_order
     /\ (forall fd v,
           (fd, v) ∈ [(FRepoURL, "https://github.com/o/r.git");
                      (FRevision, "abc123"); (FState, "success");
                      (FLabel, "ci"); (FTargetURL, "http://x")] ->
           get_field fd p' = v))
  /\ (exists n' h' l p',
        @runTemplates Reference.engine Reference.sample_templates
          (Reference.notify "deployed") Reference.vars_flat_state
          (Reference.store_with Reference.stale_payload) []
        = ((n', h',
            [[Reference.NField ["repo"]]; [Reference.NField ["rev"]];
             [Reference.NField ["state"; "phase"]]]),
           Some "can't evaluate field phase in type string")
        /\ GitHub n' = Some l /\ h' !! l = Some p'
        /\ [FRepoURL; FRevision] = take 2 field_order
        /\ (forall fd' v,
              (fd', v) ∈ [(FRepoURL, "https://github.com/o/r.git");
                          (FRevision, "abc123")] ->
              get_field fd' p' = v)).
Proof.
  split.
  - apply (proj1 (@runTemplates_fixed_order_fail_fast Reference.engine
                    Reference.sample_templates (mkNotification "deployed" None)
                    Reference.vars_full ∅ [] (payload_valid_nil _ _))
             _ [(FRepoURL, "https://github.com/o/r.git");
                (FRevision, "abc123"); (FState, "success");
                (FLabel, "ci"); (FTargetURL, "http://x")]).
    vm_compute. reflexivity.
  - apply (proj2 (@runTemplates_fixed_order_fail_fast Reference.engine
                    Reference.sample_templates (Reference.notify "deployed")
                    Reference.vars_flat_state
                    (Reference.store_with Reference.stale_payload) []
                    (payload_valid_store_with _ _))
             2%nat FState
             [[Reference.NField ["repo"]]; [Reference.NField ["rev"]]]
             [(FRepoURL, "https://github.com/o/r.git"); (FRevision, "abc123")]
             _ "").
    + reflexivity.
    + vm_compute. reflexivity.
    + vm_compute. reflexivity.
Defined.

(** The failing run above on the stale payload: the two fields written
    are new, the other three are the old ones. *)
Example runTemplates_partial_payload :
  @runTemplates Reference.engine Reference.sample_templates
    (Reference.notify "deployed") Reference.vars_flat_state
    (Reference.store_with Reference.stale_payload) []
  = ((Reference.notify "deployed",
      Reference.store_with
        (mkGitHubNotification "failure" "old-label" "http://old"
           "https://github.com/o/r.git" "abc123"),
      [[Reference.NField ["repo"]]; [Reference.NField ["rev"]];
       [Reference.NField ["state"; "phase"]]]),
     Some "can't evaluate field phase in type string").
Proof. vm_compute. reflexivity. Qed.

Lemma runTemplates_reuses_payload_witness :
  exists p',
    Reference.store_with
      (mkGitHubNotification "failure" "old-label" "http://old"
         "https://github.com/o/r.git" "abc123") !! 1%positive = Some p'
    /\ State p' = "failure" /\ Label p' = "old-label"
    /\ TargetURL p' = "http://old".
Proof.
  destruct (@runTemplates_reuses_payload Reference.engine
              Reference.sample_templates (Reference.notify "deployed")
              (Reference.notify "deployed") Reference.vars_flat_state
              (Reference.store_with Reference.stale_payload)
              (Reference.store_with
                 (mkGitHubNotification "failure" "old-label" "http://old"
                    "https://github.com/o/r.git" "abc123"))
              []
              [[Reference.NField ["repo"]]; [Reference.NField ["rev"]];
               [Reference.NField ["state"; "phase"]]]
              (Some "can't evaluate field phase in type string")
              1%positive Reference.stale_payload
              eq_refl eq_refl runTemplates_partial_payload)
    as (_ & _ & _ & p' & Hp' & Hfail).
  exists p'. split; [exact Hp'|].
  destruct (Hfail 2%nat FState
              [[Reference.NField ["repo"]]; [Reference.NField ["rev"]]]
              [(FRepoURL, "https://github.com/o/r.git"); (FRevision, "abc123")]
              [[Reference.NField ["repo"]]; [Reference.NField ["rev"]];
               [Reference.NField ["state"; "phase"]]]
              "" "can't evaluate field phase in type string"
              eq_refl eq_refl eq_refl) as [_ Hkeep].
  repeat split.
  - exact (Hkeep 2%nat FState (le_n 2) eq_refl).
  - exact (Hkeep 3%nat FLabel (le_S _ _ (le_n 2)) eq_refl).
  - exact (Hkeep 4%nat FTargetURL (le_S _ _ (le_S _ _ (le_n 2))) eq_refl).
Defined.

(** ** Compilation *)

Section Compiler.
Context `{TemplateEngine}.

(** [compileTemplates] parses the five template texts in the fixed order
    and stops at the first text the engine rejects, with the engine's
    error. *)
Lemma compileTemplates_first_failure (g : GitHubNotification) (name : string)
    (f : FuncMap) :
  match spec_first_parse_failure g name f field_order with
  | Some (_, e) => compileTemplates g name f = Err e
  | None =>
    exists cs, compileTemplates g name f = Ok cs
               /\ forall fd, tt_Parse name f (template_text g fd)
                             = Ok (template_of cs fd)
  end.
Proof.
  unfold compileTemplates, field_order. cbn [spec_first_parse_failure].
  replace (if negb (String.eqb (RepoURL g) "") then RepoURL g
           else defaultRepoURLtemplate)
    with (template_text g FRepoURL)
    by (cbn; destruct (String.eqb (RepoURL g) ""); reflexivity).
  replace (if negb (String.eqb (Revision g) "") then Revision g
           else defaultRevisionTemplate)
    with (template_text g FRevision)
    by (cbn; destruct (String.eqb (Revision g) ""); reflexivity).
  change (State g) with (template_text g FState).
  change (Label g) with (template_text g FLabel).
  change (TargetURL g) with (template_text g FTargetURL).
  destruct (tt_Parse name f (template_text g FRepoURL)) as [t1|e1] eqn:H1;
    [|reflexivity].
  destruct (tt_Parse name f (template_text g FRevision)) as [t2|e2] eqn:H2;
    [|reflexivity].
  destruct (tt_Parse name f (template_text g FState)) as [t3|e3] eqn:H3;
    [|reflexivity].
  destruct (tt_Parse name f (template_text g FLabel)) as [t4|e4] eqn:H4;
    [|reflexivity].
  destruct (tt_Parse name f (template_text g FTargetURL)) as [t5|e5] eqn:H5;
    [|reflexivity].
  cbn [rbind]. eexists. split; [reflexivity|].
  intros []; cbn [template_of repoURL revision state label targetURL];
    assumption.
Qed.

Lemma spec_first_parse_failure_at (g : GitHubNotification) (name : string)
    (f : FuncMap) (fds : list Field) (i : nat) (fd : Field) (e : error) :
  fds !! i = Some fd ->
  tt_Parse name f (template_text g fd) = Err e ->
  (forall j fdj, (j < i)%nat -> fds !! j = Some fdj ->
     exists t, tt_Parse name f (template_text g fdj) = Ok t) ->
  spec_first_parse_failure g name f fds = Some (fd, e).
Proof.
  revert i. induction fds as [|fd0 rest IH]; intros i Hfd Herr Hbefore;
    [discriminate Hfd|].
  cbn [spec_first_parse_failure]. destruct i as [|i].
  - injection Hfd as ->. rewrite Herr. reflexivity.
  - destruct (Hbefore 0%nat fd0 ltac:(lia) eq_refl) as [t ->].
    apply (IH i Hfd Herr). intros j fdj Hlt Hj.
    apply (Hbefore (S j) fdj); [lia | exact Hj].
Qed.

Lemma spec_first_parse_failure_error (g : GitHubNotification) (name : string)
    (f : FuncMap) (fds : list Field) (fd : Field) (e : error) :
  spec_first_parse_failure g name f fds = Some (fd, e) ->
  fd ∈ fds /\ tt_Parse name f (template_text g fd) = Err e.
Proof.
  induction fds as [|fd0 rest IH]; [discriminate|].
  cbn [spec_first_parse_failure].
  destruct (tt_Parse name f (template_text g fd0)) as [t|e0] eqn:Hp.
  - intros Hrest. destruct (IH Hrest) as [Hin Herr].
    split; [apply list_elem_of_further, Hin | exact Herr].
  - intros [= <- <-]. split; [apply list_elem_of_here | exact Hp].
Qed.

Lemma GetTemplater_compile (g : GitHubNotification) (name : string)
    (f : FuncMap) :
  GetTemplater g name f
  = match compileTemplates g name f with
    | Ok cs => Ok (runTemplates cs)
    | Err e => Err e
    end.
Proof. reflexivity. Qed.

(** The closure [GetTemplater] returns is [runTemplates] over the
    templates it compiled. *)
Lemma GetTemplater_Ok (g : GitHubNotification) (name : string)
    (f : FuncMap) (run : Templater) :
  GetTemplater g name f = Ok run ->
  exists cs, compileTemplates g name f = Ok cs /\ run = runTemplates cs.
Proof.
  rewrite GetTemplater_compile.
  destruct (compileTemplates g name f) as [cs|e]; [|discriminate].
  intros [= <-]. exists cs. split; reflexivity.
Qed.

Lemma compileTemplates_Ok (g : GitHubNotification) (name : string)
    (f : FuncMap) (cs : CompiledTemplates) :
  compileTemplates g name f = Ok cs ->
  forall fd, tt_Parse name f (template_text g fd) = Ok (template_of cs fd).
Proof.
  intros Hc. pose proof (compileTemplates_first_failure g name f) as Hs.
  destruct (spec_first_parse_failure g name f field_order) as [[fd e]|].
  - congruence.
  - destruct Hs as (cs' & Hc' & Hall). congruence.
Qed.

Lemma compileTemplates_all_parse (g : GitHubNotification) (name : string)
    (f : FuncMap) :
  (forall fd, exists t, tt_Parse name f (template_text g fd) = Ok t) ->
  exists cs, compileTemplates g name f = Ok cs
             /\ forall fd, tt_Parse name f (template_text g fd)
                           = Ok (template_of cs fd).
Proof.
  intros Hall. pose proof (compileTemplates_first_failure g name f) as Hs.
  destruct (spec_first_parse_failure g name f field_order) as [[fd e]|] eqn:Hf.
  - apply spec_first_parse_failure_error in Hf as [_ Herr].
    destruct (Hall fd) as [t Ht]. congruence.
  - exact Hs.
Qed.

End Compiler.

Section CompilerClaims.
Context `{TemplateEngine}.

Lemma spec_execute_in_order_head (cs : CompiledTemplates) (vars : Vars)
    (fd : Field) (rest : list Field) (w w1 w' : World) (out : string)
    (written : list (Field * string)) (failure : option (Field * error)) :
  tt_Execute (template_of cs fd) vars w = (w1, (out, None)) ->
  spec_execute_in_order cs vars (fd :: rest) w = (w', written, failure) ->
  (fd, out) ∈ written.
Proof.
  intros Hexec. cbn [spec_execute_in_order]. rewrite Hexec.
  destruct (spec_execute_in_order cs vars rest w1) as [[w2 written2] failure2].
  intros [= _ <- _]. apply list_elem_of_here.
Qed.

(** C7, as the code has it: the five templates are compiled in the order
    repoURL, revision, state, label, targetURL; the first one the engine
    rejects ends compilation and no closure is returned; the error
    returned is the engine's error for that template, as it is. *)
Theorem GetTemplater_first_parse_error (g : GitHubNotification)
    (name : string) (f : FuncMap) :
  (forall i fd e,
     field_order !! i = Some fd ->
     tt_Parse name f (template_text g fd) = Err e ->
     (forall j fdj, (j < i)%nat -> field_order !! j = Some fdj ->
        exists t, tt_Parse name f (template_text g fdj) = Ok t) ->
     GetTemplater g name f = Err e)
  /\ (forall e, GetTemplater g name f = Err e ->
        exists fd, tt_Parse name f (template_text g fd) = Err e)
  /\ ((forall fd, exists t, tt_Parse name f (template_text g fd) = Ok t) ->
      exists cs, GetTemplater g name f = Ok (runTemplates cs)).
Proof.
  pose proof (compileTemplates_first_failure g name f) as Hs.
  repeat split.
  - intros i fd e Hfd Herr Hbefore.
    rewrite (spec_first_parse_failure_at g name f _ i fd e Hfd Herr Hbefore)
      in Hs.
    rewrite GetTemplater_compile, Hs. reflexivity.
  - intros e He. rewrite GetTemplater_compile in He.
    destruct (spec_first_parse_failure g name f field_order)
      as [[fd e']|] eqn:Hf.
    + apply spec_first_parse_failure_error in Hf as [_ Herr].
      rewrite Hs in He. injection He as <-. exists fd. exact Herr.
    + destruct Hs as (cs & Hc & _). rewrite Hc in He. discriminate He.
  - intros Hall. destruct (compileTemplates_all_parse g name f Hall)
      as (cs & Hc & _).
    exists cs. rewrite GetTemplater_compile, Hc. reflexivity.
Qed.

(** C6: an empty [RepoURL] is compiled as the default
    [{{.app.spec.source.repoURL}}] and an empty [Revision] as
    [{{.app.status.operationState.syncResult.revision}}]; non-empty
    texts are compiled as they are.  Where the engine parses the five
    texts, [GetTemplater] returns the closure over exactly these parses;
    and with an empty [RepoURL], where the parse of the default renders
    [https://x/y/z.git], a run of the closure leaves that in the payload's
    [RepoURL]. *)
Theorem GetTemplater_default_templates (g : GitHubNotification)
    (name : string) (f : FuncMap)
    (tRepo tRev tState tLabel tTarget : Template) :
  tt_Parse name f
    (if String.eqb (RepoURL g) "" then "{{.app.spec.source.repoURL}}"
     else RepoURL g) = Ok tRepo ->
  tt_Parse name f
    (if String.eqb (Revision g) ""
     then "{{.app.status.operationState.syncResult.revision}}"
     else Revision g) = Ok tRev ->
  tt_Parse name f (State g) = Ok tState ->
  tt_Parse name f (Label g) = Ok tLabel ->
  tt_Parse name f (TargetURL g) = Ok tTarget ->
  compileTemplates g name f
  = Ok (mkCompiled tRepo tRev tState tLabel tTarget)
  /\ GetTemplater g name f
     = Ok (runTemplates (mkCompiled tRepo tRev tState tLabel tTarget))
  /\ (forall n vars h w w1,
        RepoURL g = "" ->
        payload_valid n h ->
        tt_Execute tRepo vars w = (w1, ("https://x/y/z.git", None)) ->
        exists n' h' w' res l p',
          runTemplates (mkCompiled tRepo tRev tState tLabel tTarget)
            n vars h w = ((n', h', w'), res)
          /\ GitHub n' = Some l /\ h' !! l = Some p'
          /\ RepoURL p' = "https://x/y/z.git").
Proof.
  intros HpRepo HpRev HpState HpLabel HpTarget.
  assert (Hc : compileTemplates g name f
               = Ok (mkCompiled tRepo tRev tState tLabel tTarget)).
  { unfold compileTemplates.
    replace (if negb (String.eqb (RepoURL g) "") then RepoURL g
             else defaultRepoURLtemplate)
      with (if String.eqb (RepoURL g) "" then "{{.app.spec.source.repoURL}}"
            else RepoURL g)
      by (destruct (String.eqb (RepoURL g) ""); reflexivity).
    replace (if negb (String.eqb (Revision g) "") then Revision g
             else defaultRevisionTemplate)
      with (if String.eqb (Revision g) ""
            then "{{.app.status.operationState.syncResult.revision}}"
            else Revision g)
      by (destruct (String.eqb (Revision g) ""); reflexivity).
    rewrite HpRepo. cbn [rbind]. rewrite HpRev. cbn [rbind].
    rewrite HpState. cbn [rbind]. rewrite HpLabel. cbn [rbind].
    rewrite HpTarget. reflexivity. }
  split; [exact Hc|].
  split; [rewrite GetTemplater_compile, Hc; reflexivity|].
  intros n vars h w w1 _ Hvalid Hexec.
  set (cs := mkCompiled tRepo tRev tState tLabel tTarget) in *.
  destruct (spec_execute_in_order cs vars field_order w)
    as [[w' written] failure] eqn:Hrun.
  destruct (runTemplates_result cs n vars h w w' written failure Hvalid Hrun)
    as (n' & h' & l & p & Hres & _ & Hptr & Hl & _ & Hnew & _).
  exists n', h', w', (snd <$> failure), l, (apply_writes written p).
  repeat split; try assumption.
  apply (Hnew FRepoURL).
  apply (spec_execute_in_order_head cs vars FRepoURL _ w w1 w' _ written
           failure Hexec Hrun).
Qed.

(** The executions before field [i] succeeding and that of field [i]
    giving [out], the output [out] is among those of the whole run. *)
Lemma spec_execute_in_order_reaches (cs : CompiledTemplates) (vars : Vars)
    (i : nat) (fd : Field) (w wi w1 w' : World) (out : string)
    (before written : list (Field * string))
    (failure : option (Field * error)) :
  field_order !! i = Some fd ->
  spec_execute_in_order cs vars (take i field_order) w = (wi, before, None) ->
  tt_Execute (template_of cs fd) vars wi = (w1, (out, None)) ->
  spec_execute_in_order cs vars field_order w = (w', written, failure) ->
  (fd, out) ∈ written.
Proof.
  intros Hfd Hbefore Hexec Hall.
  rewrite <- (take_drop_middle field_order i fd Hfd) in Hall.
  rewrite spec_execute_in_order_app, Hbefore in Hall.
  destruct (spec_execute_in_order cs vars (fd :: drop (S i) field_order) wi)
    as [[w2 written2] failure2] eqn:Hrest.
  injection Hall as _ <- _.
  apply elem_of_app. right.
  apply (spec_execute_in_order_head cs vars fd _ wi w1 w2 out written2
           failure2 Hexec Hrest).
Qed.

(** Every recorded output is what an execution of the field's template
    gave. *)
Lemma spec_execute_in_order_outputs (cs : CompiledTemplates) (vars : Vars)
    (fds : list Field) (w w' : World) (written : list (Field * string))
    (failure : option (Field * error)) :
  spec_execute_in_order cs vars fds w = (w', written, failure) ->
  forall fd out, (fd, out) ∈ written ->
    exists w0, snd (tt_Execute (template_of cs fd) vars w0) = (out, None).
Proof.
  revert w w' written failure.
  induction fds as [|fd0 rest IH]; intros w w' written failure.
  - cbn. intros [= _ <- _] fd out Hin. apply elem_of_nil in Hin.
    contradiction.
  - cbn [spec_execute_in_order].
    destruct (tt_Execute (template_of cs fd0) vars w) as [w1 [o [e|]]] eqn:He.
    + intros [= _ <- _] fd out Hin. apply elem_of_nil in Hin. contradiction.
    + destruct (spec_execute_in_order cs vars rest w1)
        as [[w2 written'] failure'] eqn:Hrest.
      intros [= _ <- _] fd out Hin.
      apply elem_of_cons in Hin as [[= -> ->] | Hin].
      * exists w. rewrite He. reflexivity.
      * apply (IH _ _ _ _ Hrest fd out Hin).
Qed.

(** C9: an empty text for [State], [Label] or [TargetURL] is handed to the
    engine as it is, no default takes its place.  Where the engine accepts
    the empty text and the other four texts, [GetTemplater] returns the
    closure, with the parse of the empty text for that field.  Where the
    empty template renders the empty string: when the five executions
    succeed, the closure returns nil and the field holds the empty
    string; and when the executions before that field succeed, the field
    holds the empty string however the later ones end. *)
Theorem GetTemplater_empty_templates (g : GitHubNotification) (name : string)
    (f : FuncMap) (fd : Field) (te : Template) :
  fd ∈ [FState; FLabel; FTargetURL] ->
  get_field fd g = "" ->
  tt_Parse name f "" = Ok te ->
  (forall fd', fd' <> fd ->
     exists t, tt_Parse name f (template_text g fd') = Ok t) ->
  exists cs,
    compileTemplates g name f = Ok cs
    /\ GetTemplater g name f = Ok (runTemplates cs)
    /\ template_of cs fd = te
    /\ (forall n vars h w w' written,
          payload_valid n h ->
          (forall w0, snd (tt_Execute te vars w0) = ("", None)) ->
          spec_execute_in_order cs vars field_order w = (w', written, None) ->
          exists n' h' l p',
            runTemplates cs n vars h w = ((n', h', w'), None)
            /\ GitHub n' = Some l /\ h' !! l = Some p'
            /\ get_field fd p' = "")
    /\ (forall n vars h w i wi before,
          payload_valid n h ->
          (forall w0, snd (tt_Execute te vars w0) = ("", None)) ->
          field_order !! i = Some fd ->
          spec_execute_in_order cs vars (take i field_order) w
            = (wi, before, None) ->
          exists n' h' w' res l p',
            runTemplates cs n vars h w = ((n', h', w'), res)
            /\ GitHub n' = Some l /\ h' !! l = Some p'
            /\ get_field fd p' = "").
Proof.
  intros Hfd Hempty Hparse Hothers.
  assert (Htext : template_text g fd = "").
  { rewrite <- Hempty.
    apply elem_of_cons in Hfd as [-> | Hfd]; [reflexivity|].
    apply elem_of_cons in Hfd as [-> | Hfd]; [reflexivity|].
    apply elem_of_cons in Hfd as [-> | Hfd]; [reflexivity|].
    apply elem_of_nil in Hfd. contradiction. }
  assert (Hall : forall fd', exists t, tt_Parse name f (template_text g fd') = Ok t).
  { intros fd'. destruct (decide (fd' = fd)) as [-> | Hne].
    - exists te. rewrite Htext. exact Hparse.
    - apply Hothers, Hne. }
  destruct (compileTemplates_all_parse g name f Hall) as (cs & Hc & Hcs).
  exists cs. split; [exact Hc|].
  split; [rewrite GetTemplater_compile, Hc; reflexivity|].
  assert (Hte : template_of cs fd = te).
  { specialize (Hcs fd). rewrite Htext, Hparse in Hcs. congruence. }
  split; [exact Hte|]. split.
  - intros n vars h w w' written Hvalid Hrender Hexec.
    destruct (runTemplates_result cs n vars h w w' written None Hvalid Hexec)
      as (n' & h' & l & p & Hres & _ & Hptr & Hl & _ & Hnew & _).
    exists n', h', l, (apply_writes written p).
    repeat split; try assumption.
    assert (Hin : fd ∈ written.*1).
    { rewrite (spec_execute_in_order_written _ _ _ _ _ _ _ Hexec).
      clear - Hfd. unfold field_order.
      repeat (apply elem_of_cons in Hfd as [-> | Hfd]; [repeat constructor|]).
      apply elem_of_nil in Hfd. contradiction. }
    apply list_elem_of_fmap in Hin as ([fd' out] & Heq & Hin).
    cbn in Heq. subst fd'.
    destruct (spec_execute_in_order_outputs _ _ _ _ _ _ _ Hexec fd out Hin)
      as [w0 Hout].
    rewrite Hte, Hrender in Hout. injection Hout as <-.
    apply (Hnew fd "" Hin).
  - intros n vars h w i wi before Hvalid Hrender Hi Hbefore.
    destruct (spec_execute_in_order cs vars field_order w)
      as [[w' written] failure] eqn:Hexec.
    destruct (runTemplates_result cs n vars h w w' written failure Hvalid Hexec)
      as (n' & h' & l & p & Hres & _ & Hptr & Hl & _ & Hnew & _).
    exists n', h', w', (snd <$> failure), l, (apply_writes written p).
    repeat split; try assumption.
    apply Hnew.
    pose proof (Hrender wi) as Hout. rewrite <- Hte in Hout.
    destruct (tt_Execute (template_of cs fd) vars wi) as [w1 [out err]] eqn:He.
    cbn [snd] in Hout. injection Hout as -> ->.
    apply (spec_execute_in_order_reaches cs vars i fd w wi w1 w' "" before
             written failure Hi Hbefore He Hexec).
Qed.

End CompilerClaims.

Lemma GetTemplater_first_parse_error_witness :
  @GetTemplater Reference.engine Reference.bad_revision_config "status" tt
    = Err "template: status:1: unclosed action"
  /\ exists cs,
       @GetTemplater Reference.engine Reference.sample_config "status" tt
       = Ok (@runTemplates Reference.engine cs).
Proof.
  split.
  - apply (proj1 (@GetTemplater_first_parse_error Reference.engine
                    Reference.bad_revision_config "status" tt)
             1%nat FRevision).
    + reflexivity.
    + vm_compute. reflexivity.
    + intros j fdj Hlt Hj. destruct j as [|j].
      * injection Hj as <-. eexists. vm_compute. reflexivity.
      * exfalso. apply (Nat.nlt_0_r j). apply Nat.succ_lt_mono. exact Hlt.
  - apply (proj2 (proj2 (@GetTemplater_first_parse_error Reference.engine
                           Reference.sample_config "status" tt))).
    intros []; eexists; vm_compute; reflexivity.
Defined.

(** C7 as stated fails: an unclosed action in [RepoURL] and one in
    [Revision] give the same error, so the error cannot tell which field
    failed. *)
Lemma GetTemplater_error_names_no_field :
  ~ exists which : error -> Field,
      forall (g : GitHubNotification) (fd : Field) (e : error),
        @spec_first_parse_failure Reference.engine g "status" tt field_order
          = Some (fd, e) ->
        @GetTemplater Reference.engine g "status" tt = Err e ->
        which e = fd.
Proof.
  intros [which Hwhich].
  pose proof (Hwhich Reference.bad_repoURL_config FRepoURL
                "template: status:1: unclosed action" eq_refl eq_refl) as H1.
  pose proof (Hwhich Reference.bad_revision_config FRevision
                "template: status:1: unclosed action" eq_refl eq_refl) as H2.
  congruence.
Qed.

Lemma GetTemplater_default_templates_witness :
  @compileTemplates Reference.engine zeroGitHubNotification "status" tt
    = Ok Reference.default_templates
  /\ @GetTemplater Reference.engine zeroGitHubNotification "status" tt
     = Ok (@runTemplates Reference.engine Reference.default_templates)
  /\ (exists n' h' w' res l p',
        @runTemplates Reference.engine Reference.default_templates
          (mkNotification "deployed" None) Reference.vars_app ∅ []
        = ((n', h', w'), res)
        /\ GitHub n' = Some l /\ h' !! l = Some p'
        /\ RepoURL p' = "https://x/y/z.git")
  /\ @compileTemplates Reference.engine Reference.sample_config "status" tt
     = Ok Reference.sample_templates.
Proof.
  destruct (@GetTemplater_default_templates Reference.engine
              zeroGitHubNotification "status" tt
              [Reference.NField ["app"; "spec"; "source"; "repoURL"]]
              [Reference.NField
                 ["app"; "status"; "operationState"; "syncResult"; "revision"]]
              [] [] [] eq_refl eq_refl eq_refl eq_refl eq_refl)
    as (Hc & Hget & Hrun).
  split; [exact Hc|]. split; [exact Hget|]. split.
  - apply (Hrun (mkNotification "deployed" None) Reference.vars_app ∅ []
             [[Reference.NField ["app"; "spec"; "source"; "repoURL"]]]).
    + reflexivity.
    + apply payload_valid_nil.
    + vm_compute. reflexivity.
  - apply (proj1 (@GetTemplater_default_templates Reference.engine
                    Reference.sample_config "status" tt
                    [Reference.NField ["repo"]] [Reference.NField ["rev"]]
                    [Reference.NField ["state"; "phase"]]
                    [Reference.NText "ci"] [Reference.NField ["url"]]
                    eq_refl eq_refl eq_refl eq_refl eq_refl)).
Defined.

Lemma GetTemplater_empty_templates_witness :
  @GetTemplater Reference.engine Reference.empty_state_config "status" tt
    = Ok (@runTemplates Reference.engine
            (@mkCompiled Reference.engine
               [Reference.NField ["repo"]] [Reference.NField ["rev"]] []
               [Reference.NText "ci"] [Reference.NField ["url"]]))
  /\ (exists n' h' l p',
        @runTemplates Reference.engine
          (@mkCompiled Reference.engine
             [Reference.NField ["repo"]] [Reference.NField ["rev"]] []
             [Reference.NText "ci"] [Reference.NField ["url"]])
          (Reference.notify "deployed") Reference.vars_full
          (Reference.store_with Reference.stale_payload) []
        = ((n', h',
            [[Reference.NField ["repo"]]; [Reference.NField ["rev"]]; [];
             [Reference.NText "ci"]; [Reference.NField ["url"]]]), None)
        /\ GitHub n' = Some l /\ h' !! l = Some p'
        /\ get_field FState p' = "")
  /\ (exists n' h' w' res l p',
        @runTemplates Reference.engine
          (@mkCompiled Reference.engine
             [Reference.NField ["repo"]] [Reference.NField ["rev"]] []
             [Reference.NText "ci"] [Reference.NField ["url"; "host"]])
          (Reference.notify "deployed") Reference.vars_full
          (Reference.store_with Reference.stale_payload) []
        = ((n', h', w'), res)
        /\ GitHub n' = Some l /\ h' !! l = Some p'
        /\ get_field FState p' = "")
  /\ snd (@runTemplates Reference.engine
            (@mkCompiled Reference.engine
               [Reference.NField ["repo"]] [Reference.NField ["rev"]] []
               [Reference.NText "ci"] [Reference.NField ["url"; "host"]])
            (Reference.notify "deployed") Reference.vars_full
            (Reference.store_with Reference.stale_payload) [])
     = Some "can't evaluate field host in type string".
Proof.
  assert (Hothers : forall fd', fd' <> FState ->
            exists t, @tt_Parse Reference.engine "status" tt
                        (template_text Reference.empty_state_config fd')
                      = Ok t)
    by (intros [] _; eexists; vm_compute; reflexivity).
  destruct (@GetTemplater_empty_templates Reference.engine
              Reference.empty_state_config "status" tt FState []
              (list_elem_of_here _ _) eq_refl eq_refl Hothers)
    as (cs & Hc & Hget & _ & Hall & _).
  vm_compute in Hc. injection Hc as <-.
  split; [exact Hget|]. split; [|split].
  - apply (Hall (Reference.notify "deployed") Reference.vars_full
             (Reference.store_with Reference.stale_payload) [] _
             [(FRepoURL, "https://github.com/o/r.git"); (FRevision, "abc123");
              (FState, ""); (FLabel, "ci"); (FTargetURL, "http://x")]).
    + apply payload_valid_store_with.
    + intros w0. reflexivity.
    + vm_compute. reflexivity.
  - assert (Hothers' : forall fd', fd' <> FState ->
              exists t, @tt_Parse Reference.engine "status" tt
                          (template_text
                             Reference.empty_state_late_failure_config fd')
                        = Ok t)
      by (intros [] _; eexists; vm_compute; reflexivity).
    destruct (@GetTemplater_empty_templates Reference.engine
                Reference.empty_state_late_failure_config "status" tt FState []
                (list_elem_of_here _ _) eq_refl eq_refl Hothers')
      as (cs' & Hc' & _ & _ & _ & Hprefix').
    vm_compute in Hc'. injection Hc' as <-.
    apply (Hprefix' (Reference.notify "deployed") Reference.vars_full
             (Reference.store_with Reference.stale_payload) [] 2%nat
             [[Reference.NField ["repo"]]; [Reference.NField ["rev"]]]
             [(FRepoURL, "https://github.com/o/r.git"); (FRevision, "abc123")]).
    + apply payload_valid_store_with.
    + intros w0. reflexivity.
    + reflexivity.
    + vm_compute. reflexivity.
  - vm_compute. reflexivity.
Defined.

(** * Further properties *)

(** ** trunc for any bound *)

Lemma int_wrap_in_range (z : Z) : - 2 ^ 63 <= z < 2 ^ 63 -> int_wrap z = z.
Proof.
  intros Hz. unfold int_wrap. rewrite Z.mod_small by lia. lia.
Qed.

Lemma trunc_short (message : string) (n : Z) :
  RuneCountInString message <= n -> trunc message n = Returns message.
Proof.
  intros Hle. unfold trunc.
  destruct (Z.gtb_spec (RuneCountInString message) n); [lia | reflexivity].
Qed.

Lemma runesToString_app (a b : list Z) :
  runesToString (a ++ b)%list = runesToString a +:+ runesToString b.
Proof.
  induction a as [|r a IH]; [reflexivity|].
  cbn [app runesToString]. rewrite IH, append_assoc'. reflexivity.
Qed.

Lemma trunc_long (message : string) (n : Z) :
  3 <= n < 2 ^ 63 ->
  n < RuneCountInString message ->
  let kept := runesToString (take (Z.to_nat (n - 3)) (stringToRunes message)) in
  trunc message n = Returns (kept +:+ "...")
  /\ stringToRunes kept = take (Z.to_nat (n - 3)) (stringToRunes message)
  /\ stringToRunes (kept +:+ "...")
     = (take (Z.to_nat (n - 3)) (stringToRunes message) ++ [46; 46; 46])%list
  /\ RuneCountInString (kept +:+ "...") = n.
Proof.
  intros Hn Hgt kept. unfold RuneCountInString in Hgt.
  assert (Hv : Forall valid_rune
                 (take (Z.to_nat (n - 3)) (stringToRunes message)))
    by (apply Forall_take, stringToRunes_valid).
  assert (Hrt : stringToRunes (kept +:+ "...")
                = (take (Z.to_nat (n - 3)) (stringToRunes message)
                   ++ [46; 46; 46])%list)
    by (apply (stringToRunes_runesToString _ "..." Hv)).
  repeat split.
  - unfold trunc, RuneCountInString.
    destruct (Z.gtb_spec (Z.of_nat (length (stringToRunes message))) n); [|lia].
    rewrite int_wrap_in_range by lia. unfold slice_to.
    destruct (Z.leb_spec 0 (n - 3)); [|lia].
    destruct (Z.leb_spec (n - 3) (Z.of_nat (length (stringToRunes message))));
      [|lia].
    reflexivity.
  - rewrite <- (append_empty_r kept).
    unfold kept. rewrite stringToRunes_runesToString by exact Hv.
    change (stringToRunes "") with (@nil Z). apply app_nil_r.
  - exact Hrt.
  - unfold RuneCountInString. rewrite Hrt, length_app, length_take.
    cbn [length]. lia.
Qed.

(** X1: for a bound [n] of at least 3, [trunc(message, n)] returns the
    message as it is when it has at most [n] code points, and otherwise
    its first [n - 3] code points followed by ["..."], [n] code points in
    all. *)
Theorem trunc_any_bound (message : string) (n : Z) :
  3 <= n < 2 ^ 63 ->
  (RuneCountInString message <= n -> trunc message n = Returns message)
  /\ (n < RuneCountInString message ->
      exists kept,
        trunc message n = Returns (kept +:+ "...")
        /\ stringToRunes kept
           = take (Z.to_nat (n - 3)) (stringToRunes message)
        /\ RuneCountInString (kept +:+ "...") = n).
Proof.
  intros Hn. split; [apply trunc_short|].
  intros Hgt. destruct (trunc_long message n Hn Hgt) as (Ht & Hk & _ & Hc).
  eexists. repeat split; eassumption.
Qed.

Lemma trunc_any_bound_witness :
  trunc "héllo" 5 = Returns "héllo"
  /\ exists kept,
       trunc "héllo wörld" 5 = Returns (kept +:+ "...")
       /\ stringToRunes kept = take 2 (stringToRunes "héllo wörld")
       /\ RuneCountInString (kept +:+ "...") = 5.
Proof.
  split.
  - apply (proj1 (trunc_any_bound "héllo" 5 ltac:(lia))).
    vm_compute. discriminate.
  - apply (proj2 (trunc_any_bound "héllo wörld" 5 ltac:(lia))).
    vm_compute. reflexivity.
Defined.

(** X2: for a bound below 3, [trunc] panics on every message with more
    code points than the bound: the slice bound [n - 3] is negative. *)
Theorem trunc_small_bound_panics (message : string) (n : Z) :
  - 2 ^ 63 + 3 <= n < 3 ->
  n < RuneCountInString message ->
  trunc message n
  = Panics (PanicSlice (n - 3) (RuneCountInString message)).
Proof.
  intros Hn Hgt. unfold trunc.
  destruct (Z.gtb_spec (RuneCountInString message) n); [|lia].
  rewrite int_wrap_in_range by lia. unfold slice_to.
  destruct (Z.leb_spec 0 (n - 3)); [lia|]. reflexivity.
Qed.

Lemma trunc_small_bound_panics_witness :
  trunc "abc" 2 = Panics (PanicSlice (-1) 3).
Proof.
  apply (trunc_small_bound_panics "abc" 2); [lia | vm_compute; reflexivity].
Defined.

(** X3: for every bound of at least 3, truncating twice is truncating
    once. *)
Theorem trunc_idempotent_any_bound (message : string) (n : Z) :
  3 <= n < 2 ^ 63 ->
  (call once <- trunc message n; trunc once n) = trunc message n.
Proof.
  intros Hn.
  destruct (Z.le_gt_cases (RuneCountInString message) n) as [Hle | Hgt].
  - rewrite (trunc_short message n Hle). cbn [obind].
    apply trunc_short, Hle.
  - destruct (trunc_long message n Hn ltac:(lia)) as (Ht & _ & _ & Hcount).
    rewrite Ht. cbn [obind]. apply trunc_short. lia.
Qed.

Lemma trunc_idempotent_any_bound_witness :
  (call once <- trunc "héllo wörld" 5; trunc once 5) = trunc "héllo wörld" 5.
Proof. apply (trunc_idempotent_any_bound "héllo wörld" 5). lia. Defined.

Lemma prefix_append (a b : string) : String.prefix a (a +:+ b) = true.
Proof.
  induction a as [|c a IH]; [destruct b; reflexivity|].
  rewrite append_cons. cbn [String.prefix].
  destruct (ascii_dec c c) as [_ | Hne]; [exact IH | congruence].
Qed.

Lemma stringToRunes_encoded (rs : list Z) :
  Forall valid_rune rs -> stringToRunes (runesToString rs) = rs.
Proof.
  intros Hv. rewrite <- (append_empty_r (runesToString rs)).
  rewrite (stringToRunes_runesToString rs "" Hv).
  change (stringToRunes "") with (@nil Z). apply app_nil_r.
Qed.

(** X4: on a message that is the UTF-8 encoding of scalar values, [trunc]
    cuts between characters: what it keeps is the encoding of the first
    [n - 3] of them, a prefix of the message's bytes. *)
Theorem trunc_valid_utf8 (rs : list Z) (n : Z) :
  Forall valid_rune rs ->
  3 <= n < 2 ^ 63 ->
  trunc (runesToString rs) n
  = Returns (if Z.of_nat (length rs) <=? n then runesToString rs
             else runesToString (take (Z.to_nat (n - 3)) rs) +:+ "...")
  /\ String.prefix (runesToString (take (Z.to_nat (n - 3)) rs))
       (runesToString rs) = true.
Proof.
  intros Hv Hn. split.
  - destruct (Z.leb_spec (Z.of_nat (length rs)) n) as [Hle | Hgt].
    + apply trunc_short. unfold RuneCountInString.
      rewrite (stringToRunes_encoded rs Hv). exact Hle.
    + assert (Hcount : n < RuneCountInString (runesToString rs))
        by (unfold RuneCountInString; rewrite (stringToRunes_encoded rs Hv);
            exact Hgt).
      destruct (trunc_long (runesToString rs) n Hn Hcount) as (Ht & _).
      rewrite (stringToRunes_encoded rs Hv) in Ht. exact Ht.
  - rewrite <- (take_drop (Z.to_nat (n - 3)) rs) at 2.
    rewrite runesToString_app. apply prefix_append.
Qed.

Lemma trunc_valid_utf8_witness :
  trunc (runesToString [104; 233; 8364; 128512; 97; 98]) 5
  = Returns (runesToString [104; 233] +:+ "...")
  /\ String.prefix (runesToString [104; 233])
       (runesToString [104; 233; 8364; 128512; 97; 98]) = true.
Proof.
  apply (trunc_valid_utf8 [104; 233; 8364; 128512; 97; 98] 5); [|lia].
  repeat (constructor;
          [unfold valid_rune, MaxRune, surrogateMin, surrogateMax; lia|]).
  constructor.
Defined.

(** X5: whatever bytes the message holds, a truncated result is
    well-formed UTF-8: decoding it and encoding the runes again gives the
    same bytes. *)
Theorem trunc_result_well_formed (message out : string) (n : Z) :
  3 <= n < 2 ^ 63 ->
  n < RuneCountInString message ->
  trunc message n = Returns out ->
  runesToString (stringToRunes out) = out.
Proof.
  intros Hn Hgt Hout.
  destruct (trunc_long message n Hn Hgt) as (Ht & _ & Hrt & _).
  rewrite Ht in Hout. injection Hout as <-.
  rewrite Hrt, runesToString_app. reflexivity.
Qed.

Lemma trunc_result_well_formed_witness :
  let bad := String (Zbyte 0xFF) (String (Zbyte 0x80) "abcd") in
  runesToString
    (stringToRunes (runesToString [RuneError; RuneError] +:+ "..."))
  = runesToString [RuneError; RuneError] +:+ "...".
Proof.
  intros bad.
  apply (trunc_result_well_formed bad _ 5); [lia | | ].
  - vm_compute. reflexivity.
  - vm_compute. reflexivity.
Defined.

(** ** Segments of the path *)

Lemma string_mem_app (c : ascii) (a b : string) :
  string_mem c (a +:+ b) = string_mem c a || string_mem c b.
Proof.
  induction a as [|x a IH]; [reflexivity|].
  rewrite append_cons. cbn [string_mem]. rewrite IH. apply orb_assoc.
Qed.

(** No piece of a split contains the separator. *)
Lemma Split_scan_pieces (cur s : string) :
  string_mem "/" cur = false ->
  Forall (fun piece => string_mem "/" piece = false) (Split_scan "/" O cur s).
Proof.
  revert cur. induction s as [|c t IH]; intros cur Hcur.
  - cbn [Split_scan]. repeat constructor. exact Hcur.
  - cbn [Split_scan]. rewrite prefix_slash.
    destruct (Ascii.eqb c "/") eqn:Hc.
    + constructor; [exact Hcur|]. apply IH. reflexivity.
    + apply IH. rewrite string_mem_app, Hcur. cbn [string_mem].
      rewrite Hc. reflexivity.
Qed.

Lemma SplitRemoveEmpty_pieces (s : string) :
  Forall (fun piece => piece <> "" /\ string_mem "/" piece = false)
    (SplitRemoveEmpty s "/").
Proof.
  unfold SplitRemoveEmpty, strings_Split. cbn [String.eqb].
  pose proof (Split_scan_pieces "" s eq_refl) as Hp.
  induction Hp as [|piece pieces Hpiece _ IH]; [constructor|].
  cbn [List.filter]. destruct (String.eqb_spec piece ""); cbn [negb].
  - exact IH.
  - constructor; [split; assumption | exact IH].
Qed.

Lemma strings_Split_two (owner repo : string) :
  string_mem "/" owner = false -> string_mem "/" repo = false ->
  strings_Split (owner +:+ "/" +:+ repo) "/" = [owner; repo].
Proof.
  intros Hmo Hmr. unfold strings_Split. cbn [String.eqb].
  change (owner +:+ "/" +:+ repo) with (owner +:+ String "/" repo).
  rewrite (Split_scan_slash "" owner repo Hmo).
  rewrite (Split_scan_no_slash "" repo Hmr). reflexivity.
Qed.

(** The suffix is looked for behind the last slash only. *)
Lemma gitSuffix_after_slash (pre rest : string) :
  gitSuffix_ReplaceAllString (pre +:+ String "/" rest) ""
  = pre +:+ String "/" (gitSuffix_ReplaceAllString rest "").
Proof.
  induction pre as [|c pre IH].
  - rewrite !append_nil. cbn [gitSuffix_ReplaceAllString].
    destruct (String.eqb_spec (String "/" rest) ".git") as [Heq | _];
      [discriminate Heq | reflexivity].
  - rewrite !append_cons. cbn [gitSuffix_ReplaceAllString].
    destruct (String.eqb_spec (String c (pre +:+ String "/" rest)) ".git")
      as [Heq | _].
    + apply (f_equal (string_mem "/")) in Heq.
      cbn [string_mem] in Heq. rewrite string_mem_app in Heq.
      cbn [string_mem] in Heq. rewrite Ascii.eqb_refl in Heq.
      cbn [orb] in Heq. rewrite !orb_true_r in Heq.
      vm_compute in Heq. discriminate Heq.
    + rewrite IH. reflexivity.
Qed.

Lemma gitSuffix_no_slash (s : string) :
  string_mem "/" s = false ->
  string_mem "/" (gitSuffix_ReplaceAllString s "") = false.
Proof.
  induction s as [|c t IH]; [reflexivity|].
  cbn [string_mem gitSuffix_ReplaceAllString]. intros Hmem.
  apply orb_false_iff in Hmem as [Hc Ht].
  destruct (String.eqb (String c t) ".git"); [reflexivity|].
  cbn [string_mem]. rewrite Hc, (IH Ht). reflexivity.
Qed.

Lemma SplitRemoveEmpty_owner_repo (lead owner repo : string) :
  lead = "" \/ lead = "/" ->
  owner <> "" -> repo <> "" ->
  string_mem "/" owner = false -> string_mem "/" repo = false ->
  SplitRemoveEmpty (lead +:+ owner +:+ "/" +:+ repo) "/" = [owner; repo].
Proof.
  intros Hlead Ho Hr Hmo Hmr.
  unfold SplitRemoveEmpty.
  assert (Hkeep : List.filter (fun item => negb (String.eqb item ""))
                    [owner; repo] = [owner; repo]).
  { cbn [List.filter].
    destruct (String.eqb_spec owner ""); [congruence|].
    destruct (String.eqb_spec repo ""); [congruence|]. reflexivity. }
  destruct Hlead as [-> | ->].
  - rewrite append_nil, (strings_Split_two owner repo Hmo Hmr). exact Hkeep.
  - unfold strings_Split. cbn [String.eqb].
    change ("/" +:+ owner +:+ "/" +:+ repo)
      with ("" +:+ String "/" (owner +:+ "/" +:+ repo)).
    rewrite (Split_scan_slash "" "" _ eq_refl).
    pose proof (strings_Split_two owner repo Hmo Hmr) as Hs.
    unfold strings_Split in Hs. cbn [String.eqb] in Hs. rewrite Hs.
    cbn [List.filter String.append String.eqb negb]. exact Hkeep.
Qed.

(** ** The resolver and the dispatcher on whole families of inputs *)

Section ResolverMore.
Context `{GitURLs}.

Lemma fullNameByRepoURL_first_two (rawURL path owner repo : string)
    (rest : list string) :
  parsed_path rawURL = Ok path ->
  SplitRemoveEmpty (gitSuffix_ReplaceAllString path "") "/"
    = owner :: repo :: rest ->
  fullNameByRepoURL rawURL = Returns (owner +:+ "/" +:+ repo)
  /\ (owner <> "" /\ string_mem "/" owner = false)
  /\ (repo <> "" /\ string_mem "/" repo = false).
Proof.
  intros Hp Hsplit. split.
  - rewrite (fullNameByRepoURL_parsed _ _ Hp). cbv zeta. rewrite Hsplit.
    reflexivity.
  - pose proof (SplitRemoveEmpty_pieces (gitSuffix_ReplaceAllString path ""))
      as Hpieces.
    rewrite Hsplit in Hpieces.
    apply Forall_cons in Hpieces as [Ho Hpieces].
    apply Forall_cons in Hpieces as [Hr _].
    split; assumption.
Qed.

(** X6: when the path, without a final [.git], has two or more non-empty
    segments, the resolver returns the first two joined by a slash, and
    that name splits on the slash into exactly these two, both non-empty:
    further segments are dropped. *)
Theorem fullNameByRepoURL_two_segments (rawURL path owner repo : string)
    (rest : list string) :
  parsed_path rawURL = Ok path ->
  SplitRemoveEmpty (gitSuffix_ReplaceAllString path "") "/"
    = owner :: repo :: rest ->
  fullNameByRepoURL rawURL = Returns (owner +:+ "/" +:+ repo)
  /\ owner <> "" /\ repo <> ""
  /\ strings_Split (owner +:+ "/" +:+ repo) "/" = [owner; repo].
Proof.
  intros Hp Hsplit.
  destruct (fullNameByRepoURL_first_two _ _ _ _ _ Hp Hsplit)
    as (Hfull & [Ho Hmo] & [Hr Hmr]).
  repeat split; try assumption.
  apply strings_Split_two; assumption.
Qed.

(** X7: for a path [/owner/repo] or [owner/repo], with or without a final
    [.git] on the repository, the resolver returns [owner/repo] without
    the suffix. *)
Theorem fullNameByRepoURL_suffix_optional (rawURL lead owner repo : string) :
  parsed_path rawURL = Ok (lead +:+ owner +:+ "/" +:+ repo) ->
  lead = "" \/ lead = "/" ->
  owner <> "" -> string_mem "/" owner = false ->
  string_mem "/" repo = false ->
  gitSuffix_ReplaceAllString repo "" <> "" ->
  fullNameByRepoURL rawURL
  = Returns (owner +:+ "/" +:+ gitSuffix_ReplaceAllString repo "").
Proof.
  intros Hp Hlead Ho Hmo Hmr Hr.
  rewrite (fullNameByRepoURL_parsed _ _ Hp). cbv zeta.
  replace (lead +:+ owner +:+ "/" +:+ repo)
    with ((lead +:+ owner) +:+ String "/" repo)
    by (rewrite append_assoc'; reflexivity).
  rewrite gitSuffix_after_slash.
  replace ((lead +:+ owner) +:+ String "/" (gitSuffix_ReplaceAllString repo ""))
    with (lead +:+ owner +:+ "/" +:+ gitSuffix_ReplaceAllString repo "")
    by (rewrite append_assoc'; reflexivity).
  rewrite (SplitRemoveEmpty_owner_repo lead owner _ Hlead Ho Hr Hmo
             (gitSuffix_no_slash repo Hmr)).
  reflexivity.
Qed.

End ResolverMore.

Lemma fullNameByRepoURL_two_segments_witness :
  @fullNameByRepoURL Reference.giturls "https://github.com/o/r/tree/main"
    = Returns "o/r"
  /\ "o" <> "" /\ "r" <> ""
  /\ strings_Split "o/r" "/" = ["o"; "r"].
Proof.
  apply (@fullNameByRepoURL_two_segments Reference.giturls
           "https://github.com/o/r/tree/main" "/o/r/tree/main" "o" "r"
           ["tree"; "main"]).
  - vm_compute. reflexivity.
  - vm_compute. reflexivity.
Defined.

Lemma fullNameByRepoURL_suffix_optional_witness :
  @fullNameByRepoURL Reference.giturls "ssh://git@github.com/owner/repo"
    = Returns "owner/repo"
  /\ @fullNameByRepoURL Reference.giturls "git@github.com:owner/repo.git"
     = Returns "owner/repo".
Proof.
  split.
  - apply (@fullNameByRepoURL_suffix_optional Reference.giturls
             "ssh://git@github.com/owner/repo" "/" "owner" "repo").
    + vm_compute. reflexivity.
    + right. reflexivity.
    + discriminate.
    + reflexivity.
    + reflexivity.
    + vm_compute. discriminate.
  - apply (@fullNameByRepoURL_suffix_optional Reference.giturls
             "git@github.com:owner/repo.git" "" "owner" "repo.git").
    + vm_compute. reflexivity.
    + left. reflexivity.
    + discriminate.
    + reflexivity.
    + reflexivity.
    + vm_compute. discriminate.
Defined.

Lemma trunc_140_count (message description : string) :
  trunc message 140 = Returns description ->
  RuneCountInString description <= 140.
Proof.
  intros Ht.
  destruct (Z.le_gt_cases (RuneCountInString message) 140) as [Hle | Hgt].
  - rewrite (trunc_140_short message Hle) in Ht. injection Ht as <-.
    exact Hle.
  - destruct (trunc_140_long message ltac:(lia)) as (Ht' & _ & _ & Hc).
    rewrite Ht' in Ht. injection Ht as <-. lia.
Qed.

Section DispatchMore.
Context `{GitURLs}.

(** The three ways a call of [Send] can end. *)
Lemma Send_cases (g : gitHubService) (h : PayloadStore) (n : Notification)
    (dest : Destination) :
  (GitHub n = None
   /\ Send g h n dest = ([], Returns (Some (fmt_Errorf "config is empty"))))
  \/ (exists p, Send g h n dest = ([], Panics p))
  \/ (exists l owner repo description,
        GitHub n = Some l
        /\ trunc (Message n) 140 = Returns description
        /\ Send g h n dest
           = ([mkStatusCall owner repo (Revision (h !!! l)) (State (h !!! l))
                 description (Label (h !!! l)) (TargetURL (h !!! l))],
              Returns (client g
                 (mkStatusCall owner repo (Revision (h !!! l))
                    (State (h !!! l)) description (Label (h !!! l))
                    (TargetURL (h !!! l)))))).
Proof.
  unfold Send. destruct (GitHub n) as [l|]; [|left; split; reflexivity].
  right.
  destruct (fullNameByRepoURL (RepoURL (h !!! l))) as [full | p];
    [|left; exists p; reflexivity].
  cbn [obind]. destruct (trunc_140_returns (Message n)) as [d Hd].
  rewrite Hd. cbn [obind].
  destruct (go_index (strings_Split full "/") 0) as [u0 | p];
    [|left; exists p; reflexivity].
  cbn [obind].
  destruct (go_index (strings_Split full "/") 1) as [u1 | p];
    [|left; exists p; reflexivity].
  cbn [obind]. right. exists l, u0, u1, d.
  split; [reflexivity|]. split; [reflexivity|].
  destruct (client g _); reflexivity.
Qed.

(** X9: [Send] issues at most one request.  A request carries the
    payload's revision, state, label and target URL and a description of
    at most 140 code points, and what the client answers to it is what
    [Send] returns.  When [Send] panics, and when the payload is missing
    (the error [config is empty]), no request has gone out. *)
Theorem Send_requests (g : gitHubService) (h : PayloadStore)
    (n : Notification) (dest : Destination) :
  (length (fst (Send g h n dest)) <= 1)%nat
  /\ (forall c, c ∈ fst (Send g h n dest) ->
        RuneCountInString (status_Description c) <= 140
        /\ snd (Send g h n dest) = Returns (client g c)
        /\ exists l, GitHub n = Some l
                     /\ call_ref c = Revision (h !!! l)
                     /\ status_State c = State (h !!! l)
                     /\ status_Context c = Label (h !!! l)
                     /\ status_TargetURL c = TargetURL (h !!! l))
  /\ (forall p, snd (Send g h n dest) = Panics p ->
        fst (Send g h n dest) = [])
  /\ (GitHub n = None ->
      Send g h n dest = ([], Returns (Some (fmt_Errorf "config is empty")))).
Proof.
  destruct (Send_cases g h n dest)
    as [[Hnil Hs] | [[p Hs] | (l & owner & repo & d & Hl & Hd & Hs)]];
    rewrite Hs; cbn [fst snd length].
  - split; [lia|]. split; [|split].
    + intros c Hc. apply elem_of_nil in Hc. contradiction.
    + reflexivity.
    + reflexivity.
  - split; [lia|]. split; [|split].
    + intros c Hc. apply elem_of_nil in Hc. contradiction.
    + reflexivity.
    + intros Hnil. unfold Send in Hs. rewrite Hnil in Hs. discriminate Hs.
  - split; [lia|]. split; [|split].
    + intros c Hc. apply list_elem_of_singleton in Hc as ->.
      cbn [status_Description call_ref status_State status_Context
           status_TargetURL].
      split; [apply (trunc_140_count _ _ Hd)|]. split; [reflexivity|].
      exists l. repeat split. exact Hl.
    + intros p Hp. discriminate Hp.
    + intros Hnil. congruence.
Qed.


(** X10: a path of one segment behind a slash does not stop [Send]: the
    resolved name keeps the slash, splits into an empty piece and the
    segment, and the request goes out with the empty string as owner. *)
Theorem Send_leading_slash_empty_owner (g : gitHubService) (h : PayloadStore)
    (n : Notification) (dest : Destination) (l : loc) (segment : string) :
  GitHub n = Some l ->
  parsed_path (RepoURL (h !!! l)) = Ok ("/" +:+ segment) ->
  string_mem "/" segment = false ->
  exists description,
    trunc (Message n) 140 = Returns description
    /\ Send g h n dest
       = ([mkStatusCall "" (gitSuffix_ReplaceAllString segment "")
             (Revision (h !!! l)) (State (h !!! l))
             description (Label (h !!! l)) (TargetURL (h !!! l))],
          Returns (client g
             (mkStatusCall "" (gitSuffix_ReplaceAllString segment "")
                (Revision (h !!! l)) (State (h !!! l))
                description (Label (h !!! l)) (TargetURL (h !!! l))))).
Proof.
  intros Hl Hp Hmem.
  pose proof (gitSuffix_no_slash segment Hmem) as Hname.
  assert (Hfull : fullNameByRepoURL (RepoURL (h !!! l))
                  = Returns ("" +:+ "/" +:+ gitSuffix_ReplaceAllString segment "")).
  { rewrite (fullNameByRepoURL_parsed _ _ Hp). cbv zeta.
    change ("/" +:+ segment) with ("" +:+ String "/" segment).
    rewrite gitSuffix_after_slash, append_nil.
    unfold SplitRemoveEmpty, strings_Split. cbn [String.eqb].
    change (String "/" (gitSuffix_ReplaceAllString segment ""))
      with ("" +:+ String "/" (gitSuffix_ReplaceAllString segment "")) at 1.
    rewrite (Split_scan_slash "" "" _ eq_refl).
    rewrite (Split_scan_no_slash "" _ Hname), !append_nil.
    cbn [List.filter String.eqb negb].
    destruct (String.eqb (gitSuffix_ReplaceAllString segment "") "");
      reflexivity. }
  destruct (trunc_140_returns (Message n)) as [d Hd].
  exists d. split; [exact Hd|].
  apply (Send_owner_repo g h n dest l "" _ d Hl Hfull eq_refl Hname Hd).
Qed.

End DispatchMore.

Lemma Send_requests_witness :
  let sent :=
    mkStatusCall "o" "r" "abc123" "success"
      (string_take 273 Reference.long_message +:+ "...") "ci" "http://x" in
  RuneCountInString (status_Description sent) <= 140
  /\ snd (@Send Reference.giturls Reference.client_ok
            (Reference.store_with
               (Reference.payload_for "https://github.com/o/r.git"))
            (Reference.notify Reference.long_message) Reference.nowhere)
     = Returns (client Reference.client_ok sent)
  /\ exists l,
       GitHub (Reference.notify Reference.long_message) = Some l
       /\ call_ref sent
          = Revision (Reference.store_with
                        (Reference.payload_for "https://github.com/o/r.git")
                      !!! l)
       /\ status_State sent
          = State (Reference.store_with
                     (Reference.payload_for "https://github.com/o/r.git")
                   !!! l)
       /\ status_Context sent
          = Label (Reference.store_with
                     (Reference.payload_for "https://github.com/o/r.git")
                   !!! l)
       /\ status_TargetURL sent
          = TargetURL (Reference.store_with
                         (Reference.payload_for "https://github.com/o/r.git")
                       !!! l).
Proof.
  intros sent.
  apply (proj1 (proj2 (@Send_requests Reference.giturls Reference.client_ok
                         (Reference.store_with
                            (Reference.payload_for "https://github.com/o/r.git"))
                         (Reference.notify Reference.long_message)
                         Reference.nowhere)) sent).
  rewrite Send_end_to_end. apply list_elem_of_here.
Defined.


Lemma Send_leading_slash_empty_owner_witness :
  exists description,
    trunc "deployed" 140 = Returns description
    /\ @Send Reference.giturls Reference.client_ok
         (Reference.store_with
            (Reference.payload_for "https://github.com/owner.git"))
         (Reference.notify "deployed") Reference.nowhere
       = ([mkStatusCall "" "owner" "abc123" "success" description "ci"
             "http://x"],
          Returns None).
Proof.
  apply (@Send_leading_slash_empty_owner Reference.giturls Reference.client_ok
           (Reference.store_with
              (Reference.payload_for "https://github.com/owner.git"))
           (Reference.notify "deployed") Reference.nowhere 1%positive
           "owner.git").
  - reflexivity.
  - vm_compute. reflexivity.
  - reflexivity.
Defined.

Lemma Split_scan_first (sep : string) (skip : nat) (cur s : string) :
  exists piece pieces, Split_scan sep skip cur s = piece :: pieces.
Proof.
  revert skip cur. induction s as [|c t IH]; intros skip cur.
  - eexists _, _. reflexivity.
  - cbn [Split_scan]. destruct skip as [|k]; [|apply IH].
    destruct (String.prefix sep (String c t)); [|apply IH].
    eexists _, _. reflexivity.
Qed.

(** X11: with the local-path stage behind the remote ones, the parse
    error never reaches [Send].  The one panic of [Send] is the index
    expression [u[1]] on a name of a single piece, and it comes before any
    request. *)
Theorem Send_only_index_panic (transport scp : string -> result URL)
    (g : gitHubService) (h : PayloadStore) (n : Notification)
    (dest : Destination) (p : panic_value) :
  snd (@Send (Reference.giturls_with transport scp) g h n dest) = Panics p ->
  @Send (Reference.giturls_with transport scp) g h n dest
  = ([], Panics (PanicIndex 1 1)).
Proof.
  unfold Send. destruct (GitHub n) as [l|]; [|discriminate].
  destruct (giturls_with_parsed transport scp (RepoURL (h !!! l)))
    as [path Hp].
  rewrite (fullNameByRepoURL_parsed _ _ Hp). cbv zeta.
  set (full := match SplitRemoveEmpty _ "/" with
               | owner :: repo :: _ => owner +:+ "/" +:+ repo
               | _ => gitSuffix_ReplaceAllString path ""
               end).
  cbn [obind]. destruct (trunc_140_returns (Message n)) as [d ->].
  cbn [obind]. unfold strings_Split. cbn [String.eqb].
  destruct (Split_scan_first "/" O "" full) as (u0 & rest & ->).
  destruct rest as [|u1 rest]; cbn.
  - intros _. reflexivity.
  - destruct (client g _); discriminate.
Qed.

Lemma Send_only_index_panic_witness :
  @Send Reference.giturls Reference.client_ok
    (Reference.store_with (Reference.payload_for "not a url"))
    (Reference.notify "deployed") Reference.nowhere
  = ([], Panics (PanicIndex 1 1)).
Proof.
  apply (Send_only_index_panic Reference.ParseTransport Reference.ParseScp
           Reference.client_ok
           (Reference.store_with (Reference.payload_for "not a url"))
           (Reference.notify "deployed") Reference.nowhere
           (PanicIndex 1 1)).
  vm_compute. reflexivity.
Defined.
(** ** The closure on a notification without payload, and rendering
    followed by dispatch *)

Section ExecutorMore.
Context `{TemplateEngine}.

(** X12: on a notification without payload the closure allocates one at
    an address the store did not use, touches no other object and leaves
    the message alone; when execution fails at field i, that field and
    every later one of the new object are empty strings. *)
Theorem runTemplates_allocates_payload (cs : CompiledTemplates)
    (n n' : Notification) (vars : Vars) (h h' : PayloadStore) (w w' : World)
    (res : option error) :
  GitHub n = None ->
  runTemplates cs n vars h w = ((n', h', w'), res) ->
  exists l p',
    GitHub n' = Some l /\ Message n' = Message n
    /\ h !! l = None
    /\ h' !! l = Some p'
    /\ dom h' = {[ l ]} ∪ dom h
    /\ (forall l', l' <> l -> h' !! l' = h !! l')
    /\ forall i fd wi written wf buf e,
         field_order !! i = Some fd ->
         spec_execute_in_order cs vars (take i field_order) w
           = (wi, written, None) ->
         tt_Execute (template_of cs fd) vars wi = (wf, (buf, Some e)) ->
         res = Some e
         /\ forall j fdj, (i <= j)%nat -> field_order !! j = Some fdj ->
              get_field fdj p' = "".
Proof.
  intros Hnil Hrun.
  rewrite runTemplates_in_order in Hrun. unfold attach_payload in Hrun.
  rewrite Hnil in Hrun. cbv zeta in Hrun.
  destruct (spec_execute_in_order cs vars field_order w)
    as [[w0 written0] failure0] eqn:Hexec.
  injection Hrun as <- <- <- <-.
  set (l := fresh (dom h)).
  assert (Hfresh : h !! l = None) by apply not_elem_of_dom, is_fresh.
  exists l, (apply_writes written0 zeroGitHubNotification).
  split; [reflexivity|]. split; [reflexivity|]. split; [exact Hfresh|].
  split; [rewrite write_fields_lookup, lookup_insert_eq; reflexivity|].
  split; [rewrite write_fields_dom; apply dom_insert_L|].
  split.
  { intros l' Hne. rewrite write_fields_lookup_ne by exact Hne.
    apply lookup_insert_ne. congruence. }
  intros i fd wi written wf buf e Hfd Hbefore Hfail.
  pose proof (spec_execute_in_order_fails_at cs vars i fd w wi wf written
                buf e Hfd Hbefore Hfail) as Hexec'.
  rewrite Hexec' in Hexec. injection Hexec as <- <- <-.
  split; [reflexivity|].
  intros j fdj Hij Hj.
  rewrite apply_writes_untouched; [destruct fdj; reflexivity|].
  rewrite (spec_execute_in_order_written _ _ _ _ _ _ _ Hbefore).
  intros Hin. apply elem_of_take in Hin as (k & Hk & Hlt).
  pose proof (NoDup_lookup _ _ _ _ field_order_NoDup Hk Hj). lia.
Qed.

Context `{GitURLs}.

(** X13: rendering followed by dispatch.  When the five templates render
    and the rendered repository URL has a path of two or more segments,
    the closure succeeds and [Send] on what it left issues one request:
    owner and repository from the rendered URL, the rendered revision,
    state, label and target URL, and the truncated message. *)
Theorem render_then_Send (cs : CompiledTemplates) (g : gitHubService)
    (n : Notification) (vars : Vars) (h : PayloadStore) (w w' : World)
    (dest : Destination)
    (repoOut revOut stateOut labelOut targetOut path owner repo : string)
    (rest : list string) :
  payload_valid n h ->
  spec_execute_in_order cs vars field_order w
  = (w', [(FRepoURL, repoOut); (FRevision, revOut); (FState, stateOut);
          (FLabel, labelOut); (FTargetURL, targetOut)], None) ->
  parsed_path repoOut = Ok path ->
  SplitRemoveEmpty (gitSuffix_ReplaceAllString path "") "/"
    = owner :: repo :: rest ->
  exists n' h' description,
    runTemplates cs n vars h w = ((n', h', w'), None)
    /\ trunc (Message n) 140 = Returns description
    /\ Send g h' n' dest
       = ([mkStatusCall owner repo revOut stateOut description labelOut
             targetOut],
          Returns (client g
             (mkStatusCall owner repo revOut stateOut description labelOut
                targetOut))).
Proof.
  intros Hvalid Hexec Hp Hsplit.
  destruct (runTemplates_result cs n vars h w w' _ None Hvalid Hexec)
    as (n' & h' & l & p & Hrun & Hattach & Hptr & Hl & _).
  assert (Hmsg : Message n' = Message n).
  { unfold attach_payload in Hattach.
    destruct (GitHub n); injection Hattach as <- _ _; reflexivity. }
  assert (Hpayload : h' !!! l
                     = mkGitHubNotification stateOut labelOut targetOut
                         repoOut revOut)
    by (apply lookup_total_correct; rewrite Hl; reflexivity).
  destruct (trunc_140_returns (Message n)) as [d Hd].
  exists n', h', d. split; [exact Hrun|]. split; [exact Hd|].
  assert (Hp' : parsed_path (RepoURL (h' !!! l)) = Ok path)
    by (rewrite Hpayload; exact Hp).
  destruct (fullNameByRepoURL_first_two _ _ _ _ _ Hp' Hsplit)
    as (Hfull & [_ Hmo] & [_ Hmr]).
  rewrite <- Hmsg in Hd.
  pose proof (Send_owner_repo g h' n' dest l owner repo d Hptr Hfull Hmo Hmr
                Hd) as Hsend.
  rewrite Hpayload in Hsend. exact Hsend.
Qed.

End ExecutorMore.

Lemma runTemplates_allocates_payload_witness :
  exists l p',
    GitHub (mkNotification "deployed" (Some 1%positive)) = Some l
    /\ ({[ 1%positive :=
             mkGitHubNotification "" "" "" "https://github.com/o/r.git"
               "abc123" ]} : PayloadStore) !! l = Some p'
    /\ State p' = "" /\ Label p' = "" /\ TargetURL p' = "".
Proof.
  assert (Hrun :
    @runTemplates Reference.engine Reference.sample_templates
      (mkNotification "deployed" None) Reference.vars_flat_state ∅ []
    = ((mkNotification "deployed" (Some 1%positive),
        {[ 1%positive :=
             mkGitHubNotification "" "" "" "https://github.com/o/r.git"
               "abc123" ]},
        [[Reference.NField ["repo"]]; [Reference.NField ["rev"]];
         [Reference.NField ["state"; "phase"]]]),
       Some "can't evaluate field phase in type string"))
    by (vm_compute; reflexivity).
  destruct (@runTemplates_allocates_payload Reference.engine _
              (mkNotification "deployed" None) _ _ _ _ _ _ _
              eq_refl Hrun)
    as (l & p' & Hptr & _ & _ & Hl & _ & _ & Hfail).
  exists l, p'. split; [exact Hptr|]. split; [exact Hl|].
  destruct (Hfail 2%nat FState
              [[Reference.NField ["repo"]]; [Reference.NField ["rev"]]]
              [(FRepoURL, "https://github.com/o/r.git"); (FRevision, "abc123")]
              [[Reference.NField ["repo"]]; [Reference.NField ["rev"]];
               [Reference.NField ["state"; "phase"]]]
              "" "can't evaluate field phase in type string"
              eq_refl eq_refl eq_refl) as [_ Hempty].
  repeat split.
  - exact (Hempty 2%nat FState (le_n 2) eq_refl).
  - exact (Hempty 3%nat FLabel (le_S _ _ (le_n 2)) eq_refl).
  - exact (Hempty 4%nat FTargetURL (le_S _ _ (le_S _ _ (le_n 2))) eq_refl).
Defined.

Lemma render_then_Send_witness :
  exists n' h' description,
    @runTemplates Reference.engine Reference.sample_templates
      (mkNotification "deployed" None) Reference.vars_full ∅ []
    = ((n', h',
        [[Reference.NField ["repo"]]; [Reference.NField ["rev"]];
         [Reference.NField ["state"; "phase"]]; [Reference.NText "ci"];
         [Reference.NField ["url"]]]), None)
    /\ trunc "deployed" 140 = Returns description
    /\ @Send Reference.giturls Reference.client_ok h' n' Reference.nowhere
       = ([mkStatusCall "o" "r" "abc123" "success" description "ci"
             "http://x"],
          Returns None).
Proof.
  apply (@render_then_Send Reference.engine Reference.giturls
           Reference.sample_templates Reference.client_ok
           (mkNotification "deployed" None) Reference.vars_full ∅ [] _
           Reference.nowhere
           "https://github.com/o/r.git" "abc123" "success" "ci" "http://x"
           "/o/r.git" "o" "r" []).
  - apply payload_valid_nil.
  - vm_compute. reflexivity.
  - vm_compute. reflexivity.
  - vm_compute. reflexivity.
Defined.
